(** * js-reflection: the lazy script loader and its typed member access

    A shallow embedding of the [Script] classes of the repository
    (load/script.js, load/helpers.js, lib/path/script.js) and of the two
    classifier predicates of load/helpers.js.

    - JavaScript values are an inductive type; objects carry the reference
      that tells two objects with the same contents apart.
    - An [async] method is a program over the one suspension point of the
      code, [await this.loadedScript()], and over the calls it makes into
      the loaded module.
    - The loader itself is a state machine over the private fields of the
      class, stepped by the events of the event loop: a caller entering
      [loadedScript], the dynamic import settling, a suspended caller being
      resumed. *)

From Stdlib Require Import ZArith Ascii String.
From stdpp Require Import base option list strings.

Set Warnings "-register-all".
Local Open Scope string_scope.
Local Open Scope nat_scope.
Local Open Scope list_scope.

(** ** JavaScript values *)

Module JS.

(** A function object: its identity, its source text (what
    [Function.prototype.toString] returns) and its [length], the number of
    declared parameters. *)
Record func : Type := Func {
  fn_ref : nat;
  fn_src : string;
  fn_length : nat
}.

Inductive value : Type :=
| VUndefined
| VNull
| VBool (b : bool)
| VNum (n : Z)
| VNaN
| VStr (s : string)
| VArr (items : list value)
| VObj (ref : nat) (props : list (string * value))
| VFun (f : func).

(** What a [throw] carries: an [Error] object with its message, or any
    other value (the callee's own failures, the import's rejection). *)
Inductive error : Type :=
| Error (message : string)
| Thrown (v : value).

(** The settled result of a call: a returned value or a thrown error. *)
Inductive result (A : Type) : Type :=
| Ok (a : A)
| Err (e : error).
Arguments Ok {A} a.
Arguments Err {A} e.

(** [ToBoolean]: the test behind [if (x)] and [!x]. *)
Definition truthy (v : value) : bool :=
  match v with
  | VUndefined | VNull | VNaN => false
  | VBool b => b
  | VNum n => negb (n =? 0)%Z
  | VStr s => negb (String.eqb s "")
  | VArr _ | VObj _ _ | VFun _ => true
  end.

Definition falsy (v : value) : bool := negb (truthy v).

(** [typeof v === 'function'] *)
Definition is_function_object (v : value) : bool :=
  match v with VFun _ => true | _ => false end.

(** [a === b]. Objects and functions are compared by reference; [NaN] is
    unequal to itself. Arrays carry no reference in this model and never
    compare equal (the source compares numbers only). *)
Definition strict_equal (a b : value) : bool :=
  match a, b with
  | VUndefined, VUndefined | VNull, VNull => true
  | VBool x, VBool y => Bool.eqb x y
  | VNum x, VNum y => (x =? y)%Z
  | VStr x, VStr y => String.eqb x y
  | VObj r _, VObj r' _ => r =? r'
  | VFun f, VFun g => fn_ref f =? fn_ref g
  | _, _ => false
  end.

(** The property table of an object is an association list: the first
    binding of a name is the one a read sees. *)
Fixpoint assoc {A : Type} (name : string) (props : list (string * A)) : option A :=
  match props with
  | [] => None
  | (k, v) :: rest => if String.eqb k name then Some v else assoc name rest
  end.

(** [name in v]: whether a read of [name] finds a property at all. *)
Definition has_prop (v : value) (name : string) : bool :=
  match v with
  | VObj _ props => bool_decide (is_Some (assoc name props))
  | VFun _ | VArr _ | VStr _ => String.eqb name "length"
  | _ => false
  end.

(** [v[name]] on a value that is neither [null] nor [undefined] (the
    source reads properties of truthy values only). An absent property
    reads as [undefined]. Functions, arrays and strings answer [length];
    the rest of their built-in members is not modelled. *)
Definition get_prop (v : value) (name : string) : value :=
  match v with
  | VObj _ props => default VUndefined (assoc name props)
  | VFun f => if String.eqb name "length" then VNum (Z.of_nat (fn_length f)) else VUndefined
  | VArr items => if String.eqb name "length" then VNum (Z.of_nat (length items)) else VUndefined
  | VStr s => if String.eqb name "length" then VNum (Z.of_nat (String.length s)) else VUndefined
  | _ => VUndefined
  end.

(** [v?.[name]]: optional chaining short-circuits on [null] and
    [undefined]. *)
Definition get_prop_opt (v : value) (name : string) : value :=
  match v with
  | VUndefined | VNull => VUndefined
  | _ => get_prop v name
  end.

(** The regular expression class [\s], on code units below 256: tab, line
    feed, vertical tab, form feed, carriage return, space and no-break
    space. *)
Definition is_whitespace (c : ascii) : bool :=
  let n := nat_of_ascii c in
  ((9 <=? n) && (n <=? 13)) || (n =? 32) || (n =? 160).

(** [/^class\s/.test(s)] *)
Definition class_regexp_test (s : string) : bool :=
  String.prefix "class" s &&
  match String.get 5 s with
  | Some c => is_whitespace c
  | None => false
  end.

End JS.
Import JS.

(** ** load/helpers.js: the classifier *)

(** [isClass(obj)]: a function whose source text starts with the keyword
    [class] followed by white space. *)
Definition isClass (obj : value) : bool :=
  is_function_object obj &&
  match obj with
  | VFun f => class_regexp_test (fn_src f)
  | _ => false
  end.

(** [isFunction(obj)] *)
Definition isFunction (obj : value) : bool := is_function_object obj.

(** ** The loader as a state machine

    [loadedScript] is the only method that touches the private fields
    [#loadingScript], [#loadedScript] and [#eventEmitter]. JavaScript runs
    every piece of code between two suspension points without interruption,
    so the loader is a machine stepped by three kinds of event: a caller
    enters [loadedScript] and runs up to its first [await]; the promise of
    a dynamic import settles and the [.then] or [.catch] handler runs; a
    caller whose awaited promise has settled is resumed. *)

Module Loader.

(** Where a caller of [loadedScript] stands. Callers are numbered in the
    order in which they entered. *)
Inductive status : Type :=
| AwaitLoading (p : nat)   (* suspended at [await this.#loadingScript], import number [p] *)
| AwaitLoadEvent           (* suspended on the promise its 'load' listener resolves *)
| ReadyReturn              (* awaited promise fulfilled: [return this.#loadedScript] is queued *)
| ReadyThrow (e : error)   (* awaited promise rejected: the rejection is rethrown on resumption *)
| Returned (v : value)     (* the call's own promise is fulfilled with [v] *)
| Threw (e : error).       (* the call's own promise is rejected with [e] *)

(** What the dynamic import settles to: a module namespace object (a fresh
    reference and the exports) or a rejection. *)
Inductive outcome : Type :=
| Fulfilled (ref : nat) (exports : list (string * value))
| Rejected (e : error).

Inductive event : Type :=
| Call
| Settle (p : nat) (o : outcome)
| Resume (c : nat).

(** The private fields of a [Script] instance, followed by what the event
    loop holds for it: the number of dynamic imports started so far (import
    [p] is the one started when the count was [p]), the imports that have
    not settled yet, and the callers. *)
Record machine : Type := Machine {
  p_scriptPath : string;
  p_loadingScript : option nat;
  p_loadedScript : value;
  p_eventEmitter : list nat;
  imports : nat;
  pending : list nat;
  callers : list status
}.

(** The instance as the constructor leaves it. *)
Definition fresh (href : string) : machine :=
  Machine href None VUndefined [] 0 [] [].

Definition SCRIPT_PATH_NOT_DEFINED_ERROR : error := Error "Script path not defined".

Definition ends_with (suffix s : string) : bool :=
  let n := String.length s in
  let k := String.length suffix in
  (k <=? n) && String.eqb (String.substring (n - k) k s) suffix.

(** [constructor(scriptPath)] of load/script.js and load/helpers.js;
    [pathToFileURL] is Node's, taken as given. *)
Definition constructor (pathToFileURL : string -> string) (scriptPath : string)
  : result machine :=
  if String.eqb scriptPath "" then Err SCRIPT_PATH_NOT_DEFINED_ERROR
  else
    let scriptPath := if ends_with ".js" scriptPath then scriptPath
                      else scriptPath +:+ ".js" in
    Ok (fresh (pathToFileURL scriptPath)).

(** [this.#loadingScript = import(...).then(...).catch(...)]: starts import
    number [imports m]; the caller then suspends at
    [await this.#loadingScript]. *)
Definition start_import (m : machine) : machine :=
  let p := imports m in
  Machine (p_scriptPath m) (Some p) (p_loadedScript m) (p_eventEmitter m)
          (S p) (pending m ++ [p]) (callers m ++ [AwaitLoading p]).

(** [await new Promise(resolve => this.#eventEmitter.on('load', ...))] *)
Definition listen_for_load (m : machine) : machine :=
  let c := length (callers m) in
  Machine (p_scriptPath m) (p_loadingScript m) (p_loadedScript m)
          (p_eventEmitter m ++ [c])
          (imports m) (pending m) (callers m ++ [AwaitLoadEvent]).

(** [return this.#loadedScript] without suspension. *)
Definition return_loaded (m : machine) : machine :=
  Machine (p_scriptPath m) (p_loadingScript m) (p_loadedScript m) (p_eventEmitter m)
          (imports m) (pending m) (callers m ++ [Returned (p_loadedScript m)]).

(** A 'load' listener calls [resolve]: the caller waiting on that promise
    becomes ready; resolving a promise a second time does nothing. *)
Definition wake (c : nat) (cs : list status) : list status :=
  match cs !! c with
  | Some AwaitLoadEvent => <[c := ReadyReturn]> cs
  | _ => cs
  end.

(** [this.#eventEmitter.emit('load')]: every registered listener runs. *)
Definition emit_load (listeners : list nat) (cs : list status) : list status :=
  foldr wake cs listeners.

(** The promise chain of import [p] settles: the caller awaiting it gets
    the status [s]. *)
Definition settle_chain (p : nat) (s : status) (cs : list status) : list status :=
  (fun st => match st with
             | AwaitLoading q => if q =? p then s else st
             | _ => st
             end) <$> cs.

Definition remove_pending (p : nat) (ps : list nat) : list nat :=
  filter (fun q => q <> p) ps.

(** The [.then] handler and the [.catch] handler (the latter only passes
    the value through on success; on failure the former is skipped). *)
Definition settle (p : nat) (o : outcome) (m : machine) : machine :=
  match o with
  | Fulfilled ref exports =>
      (* this.#loadedScript = script; this.#eventEmitter.emit('load'); return script *)
      Machine (p_scriptPath m) (p_loadingScript m) (VObj ref exports) (p_eventEmitter m)
              (imports m) (remove_pending p (pending m))
              (settle_chain p ReadyReturn (emit_load (p_eventEmitter m) (callers m)))
  | Rejected e =>
      (* this.#loadingScript = null; throw error *)
      Machine (p_scriptPath m) None (p_loadedScript m) (p_eventEmitter m)
              (imports m) (remove_pending p (pending m))
              (settle_chain p (ReadyThrow e) (callers m))
  end.

Definition set_caller (c : nat) (s : status) (m : machine) : machine :=
  Machine (p_scriptPath m) (p_loadingScript m) (p_loadedScript m) (p_eventEmitter m)
          (imports m) (pending m) (<[c := s]> (callers m)).

(** The code after the [await]: [return this.#loadedScript], or the
    rejection propagating out of the [async] function. *)
Definition resume (c : nat) (m : machine) : option machine :=
  match callers m !! c with
  | Some ReadyReturn => Some (set_caller c (Returned (p_loadedScript m)) m)
  | Some (ReadyThrow e) => Some (set_caller c (Threw e) m)
  | _ => None
  end.

Section Step.

(** The synchronous part of [loadedScript], which differs between the
    variants of the class. *)
Variable enter : machine -> machine.

(** One event; [None] when the event cannot happen in this state. *)
Definition step (ev : event) (m : machine) : option machine :=
  match ev with
  | Call => Some (enter m)
  | Settle p o => if bool_decide (p ∈ pending m) then Some (settle p o m) else None
  | Resume c => resume c m
  end.

Fixpoint run (evs : list event) (m : machine) : option machine :=
  match evs with
  | [] => Some m
  | ev :: evs => step ev m ≫= run evs
  end.

End Step.

End Loader.

(** ** load/script.js and load/helpers.js: [loadedScript] *)

Module LoadScript.
Import Loader.

(** The synchronous part of [loadedScript()]. The two files differ only in
    how they spell the wait for the 'load' event. *)
Definition loadedScript (m : machine) : machine :=
  if truthy (p_loadedScript m) then return_loaded m
  else match p_loadingScript m with
       | Some _ => listen_for_load m
       | None => start_import m
       end.

Definition step : event -> machine -> option machine := Loader.step loadedScript.
Definition run : list event -> machine -> option machine := Loader.run loadedScript.

End LoadScript.

(** ** lib/path/script.js: [loadedScript] *)

Module LibPathScript.
Import Loader.

(** The branch for a script that is already loading only defines
    [waitForEvent]; nothing calls it, and control falls through to the
    import. *)
Definition loadedScript (m : machine) : machine :=
  if truthy (p_loadedScript m) then return_loaded m
  else match p_loadingScript m with
       | Some _ => start_import m
       | None => start_import m
       end.

Definition step : event -> machine -> option machine := Loader.step loadedScript.
Definition run : list event -> machine -> option machine := Loader.run loadedScript.

End LibPathScript.

(** ** Asynchronous methods as programs

    Every method of the class above [loadedScript] is straight-line code
    around one [await this.loadedScript()] and at most one call into the
    loaded module. A method is a tree of these interactions; the loader and
    the module's functions give them their meaning in [exec] below. *)

Module Async.

Inductive prog (A : Type) : Type :=
| Ret (a : A)                                                  (* return a *)
| Throw (e : error)                                            (* throw e *)
| AwaitLoadedScript (k : value -> prog A)                      (* await this.loadedScript() *)
| Invoke (f : func) (args : list value) (k : value -> prog A)  (* f(...args) *)
| Construct (f : func) (args : list value) (k : value -> prog A). (* new f(...args) *)
Arguments Ret {A} a.
Arguments Throw {A} e.
Arguments AwaitLoadedScript {A} k.
Arguments Invoke {A} f args k.
Arguments Construct {A} f args k.

Fixpoint bind {A B : Type} (pr : prog A) (k : A -> prog B) : prog B :=
  match pr with
  | Ret a => k a
  | Throw e => Throw e
  | AwaitLoadedScript h => AwaitLoadedScript (fun v => bind (h v) k)
  | Invoke f args h => Invoke f args (fun v => bind (h v) k)
  | Construct f args h => Construct f args (fun v => bind (h v) k)
  end.

Notation "'let*' x ':=' p 'in' q" := (bind p (fun x => q))
  (at level 10, x name, p at level 100, q at level 200).

(** The call operator and [new] on an arbitrary value: a value that is not
    a function object raises a [TypeError]. *)
Definition TYPE_ERROR_NOT_A_FUNCTION : error := Error "TypeError: not a function".
Definition TYPE_ERROR_NOT_A_CONSTRUCTOR : error := Error "TypeError: not a constructor".

Definition call_value (fn : value) (args : list value) : prog value :=
  match fn with
  | VFun f => Invoke f args Ret
  | _ => Throw TYPE_ERROR_NOT_A_FUNCTION
  end.

Definition new_value (Class : value) (args : list value) : prog value :=
  match Class with
  | VFun f => Construct f args Ret
  | _ => Throw TYPE_ERROR_NOT_A_CONSTRUCTOR
  end.

End Async.

(** ** load/helpers.js and load/script.js: the methods of [Script] *)

Module Script.
Import Loader Async.

Definition OBJECT_NOT_DEFINED_ERROR : error := Error "Object not defined".
Definition OBJECT_NOT_FOUND_ERROR : string := "Object not found".
Definition OBJECT_IS_NOT_A_FUNCTION_ERROR : string := "Object is not a function".
Definition OBJECT_IS_NOT_A_CLASS_ERROR : string := "Object is not a class".
Definition PROPERTY_NOT_FOUND_ERROR : string := "Property not found".
Definition MISMATCHED_NUMBER_OF_PARAMETERS_ERROR : string := "Mismatched number of parameters".

Section Methods.

(** [this.#scriptPath], as string concatenation renders it. *)
Variable scriptPath : string.

(** [async getObject(objectName)] *)
Definition getObject (objectName : string) : prog value :=
  if String.eqb objectName "" then Throw OBJECT_NOT_DEFINED_ERROR
  else
    AwaitLoadedScript (fun script =>
      if negb (truthy (get_prop_opt script objectName)) then
        Throw (Error (OBJECT_NOT_FOUND_ERROR +:+ ": " +:+ scriptPath +:+ ", " +:+ objectName))
      else Ret (get_prop script objectName)).

(** [async getObjectProperty(objectName, propertyName)] (load/helpers.js) *)
Definition getObjectProperty (objectName propertyName : string) : prog value :=
  let* object := getObject objectName in
  let property := get_prop object propertyName in
  if negb (truthy property) then
    Throw (Error (PROPERTY_NOT_FOUND_ERROR +:+ ": " +:+ scriptPath +:+ ", "
                  +:+ objectName +:+ "." +:+ propertyName))
  else Ret property.

(** The [for ... of] loop of [getNestedObjectProperty]. *)
Fixpoint walk (objectName : string) (propertyNames : list string) (object : value)
  : prog value :=
  match propertyNames with
  | [] => Ret object
  | propertyName :: rest =>
      let property := get_prop object propertyName in
      if negb (truthy property) then
        Throw (Error (PROPERTY_NOT_FOUND_ERROR +:+ ": " +:+ scriptPath +:+ ", "
                      +:+ objectName +:+ "." +:+ propertyName))
      else walk objectName rest property
  end.

(** [async getNestedObjectProperty(objectName, ...propertyNames)]
    (load/helpers.js) *)
Definition getNestedObjectProperty (objectName : string) (propertyNames : list string)
  : prog value :=
  let* object := getObject objectName in
  walk objectName propertyNames object.

(** [async getFunction(functionName)] *)
Definition getFunction (functionName : string) : prog value :=
  let* object := getObject functionName in
  if negb (isFunction object) then
    Throw (Error (OBJECT_IS_NOT_A_FUNCTION_ERROR +:+ ": " +:+ scriptPath +:+ ", "
                  +:+ functionName))
  else Ret object.

(** [async getClass(className)] *)
Definition getClass (className : string) : prog value :=
  let* object := getObject className in
  if negb (isClass object) then
    Throw (Error (OBJECT_IS_NOT_A_CLASS_ERROR +:+ ": " +:+ scriptPath +:+ ", "
                  +:+ className))
  else Ret object.

(** [async callNew(className, ...parameters)]: [new Class(parameters)],
    the rest array itself being the one argument. *)
Definition callNew (className : string) (parameters : list value) : prog value :=
  let* Class := getClass className in
  new_value Class [VArr parameters].

(** [parameters.length] *)
Definition array_length (parameters : list value) : value :=
  VNum (Z.of_nat (length parameters)).

(** [async safeCallNew(className, ...parameters)] (load/helpers.js) *)
Definition safeCallNew (className : string) (parameters : list value) : prog value :=
  let* Class := getClass className in
  if negb (strict_equal (get_prop Class "length") (array_length parameters)) then
    Throw (Error (MISMATCHED_NUMBER_OF_PARAMETERS_ERROR +:+ ": " +:+ scriptPath +:+ ", "
                  +:+ className))
  else new_value Class [VArr parameters].

(** [async callFunction(functionName, ...parameters)] *)
Definition callFunction (functionName : string) (parameters : list value) : prog value :=
  let* fn := getFunction functionName in
  call_value fn parameters.

(** [async safeCallFunction(functionName, ...parameters)] (load/helpers.js) *)
Definition safeCallFunction (functionName : string) (parameters : list value)
  : prog value :=
  let* fn := getFunction functionName in
  if negb (strict_equal (get_prop fn "length") (array_length parameters)) then
    Throw (Error (MISMATCHED_NUMBER_OF_PARAMETERS_ERROR +:+ ": " +:+ scriptPath +:+ ", "
                  +:+ functionName))
  else call_value fn parameters.

(** [async callObjectMethod(objectName, methodName, ...parameters)]
    (load/helpers.js) *)
Definition callObjectMethod (objectName methodName : string) (parameters : list value)
  : prog value :=
  let* method := getObjectProperty objectName methodName in
  if negb (isFunction method) then
    Throw (Error (OBJECT_IS_NOT_A_FUNCTION_ERROR +:+ ": " +:+ scriptPath +:+ ", "
                  +:+ objectName +:+ "." +:+ methodName))
  else call_value method parameters.

(** [async callObjectMethod(objectName, methodName, ...parameters)]
    (load/script.js): the method is read off the object directly. *)
Definition callObjectMethod_direct (objectName methodName : string)
  (parameters : list value) : prog value :=
  let* object := getObject objectName in
  let method := get_prop object methodName in
  if negb (isFunction method) then
    Throw (Error (OBJECT_IS_NOT_A_FUNCTION_ERROR +:+ ": " +:+ scriptPath +:+ ", "
                  +:+ objectName +:+ "." +:+ methodName))
  else call_value method parameters.

(** [async safeCallObjectMethod(objectName, methodName, ...parameters)]
    (load/helpers.js) *)
Definition safeCallObjectMethod (objectName methodName : string)
  (parameters : list value) : prog value :=
  let* method := getObjectProperty objectName methodName in
  if negb (isFunction method) then
    Throw (Error (OBJECT_IS_NOT_A_FUNCTION_ERROR +:+ ": " +:+ scriptPath +:+ ", "
                  +:+ objectName +:+ "." +:+ methodName))
  else if negb (strict_equal (get_prop method "length") (array_length parameters)) then
    Throw (Error (MISMATCHED_NUMBER_OF_PARAMETERS_ERROR +:+ ": " +:+ scriptPath +:+ ", "
                  +:+ objectName +:+ "." +:+ methodName))
  else call_value method parameters.

End Methods.

(** What [getObject] does with the module once [loadedScript] has
    answered. *)
Definition getObject_found (path name : string) (script : value) : result value :=
  if truthy (get_prop_opt script name) then Ok (get_prop script name)
  else Err (Error (OBJECT_NOT_FOUND_ERROR +:+ ": " +:+ path +:+ ", " +:+ name)).

(** *** Running a method

    One caller at a time, each call awaited before the next is made (the
    way the tests of the repository use the class). The module's functions
    act on a world of their own; the dynamic import is an oracle giving the
    outcome of each attempt. *)

Section Exec.

Variable world : Type.
(** [f(...args)] and [new f(...args)] in the loaded module. *)
Variable call_fn : func -> list value -> world -> result value * world.
Variable construct_fn : func -> list value -> world -> result value * world.
(** What the [n]-th dynamic import of the instance settles to. *)
Variable import_ : nat -> outcome.

(** The outcome of caller [c] once it has been resumed. *)
Definition settled (c : nat) (m : machine) : option (result value * machine) :=
  match callers m !! c with
  | Some (Returned v) => Some (Ok v, m)
  | Some (Threw e) => Some (Err e, m)
  | _ => None
  end.

(** Import [p] settles as the oracle says, then caller [c] is resumed. *)
Definition settle_and_resume (p c : nat) (m : machine)
  : option (result value * machine) :=
  m2 ← LoadScript.step (Settle p (import_ p)) m;
  m3 ← LoadScript.step (Resume c) m2;
  settled c m3.

(** [await this.loadedScript()] by a caller that is alone: it enters,
    the import it depends on settles, and it is resumed. [None] when
    nothing ever resumes it. *)
Definition await_loadedScript (m : machine) : option (result value * machine) :=
  let c := length (callers m) in
  let m1 := LoadScript.loadedScript m in
  match callers m1 !! c with
  | Some (Returned v) => Some (Ok v, m1)
  | Some (AwaitLoading p) => settle_and_resume p c m1
  | Some AwaitLoadEvent =>
      match pending m1 with
      | p :: _ => settle_and_resume p c m1
      | [] => None
      end
  | _ => None
  end.

Fixpoint exec {A : Type} (pr : prog A) (m : machine) (w : world)
  : option (result A * machine * world) :=
  match pr with
  | Ret a => Some (Ok a, m, w)
  | Throw e => Some (Err e, m, w)
  | AwaitLoadedScript k =>
      match await_loadedScript m with
      | Some (Ok script, m') => exec (k script) m' w
      | Some (Err e, m') => Some (Err e, m', w)
      | None => None
      end
  | Invoke f args k =>
      match call_fn f args w with
      | (Ok v, w') => exec (k v) m w'
      | (Err e, w') => Some (Err e, m, w')
      end
  | Construct f args k =>
      match construct_fn f args w with
      | (Ok v, w') => exec (k v) m w'
      | (Err e, w') => Some (Err e, m, w')
      end
  end.

End Exec.

(** The outcome of a call into the module, as the method's own. *)
Definition outcome_of {world : Type} (m : machine) (out : result value * world)
  : option (result value * machine * world) :=
  Some (fst out, m, snd out).

End Script.


(** ** lib/path/script.js and path/script.js: the unchecked methods

    The two files share the methods [new], [object], [callFunction] and
    [callObjectMethod]; they differ from those of load/script.js in that
    nothing checks what kind of value a member is, and in that the module
    is read with [script[name]], which throws on [undefined]. *)

Module Unchecked.
Import Async.

Definition CLASS_NOT_DEFINED_ERROR : error := Error "Class not defined".
Definition CLASS_NOT_FOUND_ERROR : string := "Class not found".
Definition OBJECT_NOT_DEFINED_ERROR : error := Error "Object not defined".
Definition OBJECT_NOT_FOUND_ERROR : string := "Object not found".

(** Reading a property of [null] or [undefined] is a [TypeError]. *)
Definition TYPE_ERROR_READ (v : value) (name : string) : error :=
  Error ("TypeError: Cannot read properties of "
         +:+ match v with VNull => "null" | _ => "undefined" end
         +:+ " (reading '" +:+ name +:+ "')").

(** [v[name]] on any value. *)
Definition read (v : value) (name : string) : prog value :=
  match v with
  | VUndefined | VNull => Throw (TYPE_ERROR_READ v name)
  | _ => Ret (get_prop v name)
  end.

Section Methods.

(** [this.fullPath] in lib/path/script.js, [this.#scriptPath] in
    path/script.js. *)
Variable path : string.

(** [async new(className, ...parameters)] *)
Definition new (className : string) (parameters : list value) : prog value :=
  if String.eqb className "" then Throw CLASS_NOT_DEFINED_ERROR
  else
    AwaitLoadedScript (fun script =>
      let* member := read script className in
      if negb (truthy member) then
        Throw (Error (CLASS_NOT_FOUND_ERROR +:+ ": " +:+ path +:+ ", " +:+ className))
      else
        let* Class := read script className in
        new_value Class [VArr parameters]).

(** [async object(objectName)] *)
Definition object (objectName : string) : prog value :=
  if String.eqb objectName "" then Throw OBJECT_NOT_DEFINED_ERROR
  else
    AwaitLoadedScript (fun script =>
      let* member := read script objectName in
      if negb (truthy member) then
        Throw (Error (OBJECT_NOT_FOUND_ERROR +:+ ": " +:+ path +:+ ", " +:+ objectName))
      else read script objectName).

(** [async callFunction(functionName, ...parameters)] *)
Definition callFunction (functionName : string) (parameters : list value) : prog value :=
  let* fn := object functionName in
  call_value fn parameters.

(** [async callObjectMethod(objectName, methodName, ...parameters)] *)
Definition callObjectMethod (objectName methodName : string) (parameters : list value)
  : prog value :=
  let* obj := object objectName in
  let* method := read obj methodName in
  call_value method parameters.

End Methods.

(** Running a method over any loader: [await_] is what
    [await this.loadedScript()] gives a caller that is alone. *)
Section Run.

Variable machine : Type.
Variable await_ : machine -> option (result value * machine).
Variable world : Type.
Variable call_fn : func -> list value -> world -> result value * world.
Variable construct_fn : func -> list value -> world -> result value * world.

Fixpoint exec_on {A : Type} (pr : prog A) (m : machine) (w : world)
  : option (result A * machine * world) :=
  match pr with
  | Ret a => Some (Ok a, m, w)
  | Throw e => Some (Err e, m, w)
  | AwaitLoadedScript k =>
      match await_ m with
      | Some (Ok script, m') => exec_on (k script) m' w
      | Some (Err e, m') => Some (Err e, m', w)
      | None => None
      end
  | Invoke f args k =>
      match call_fn f args w with
      | (Ok v, w') => exec_on (k v) m w'
      | (Err e, w') => Some (Err e, m, w')
      end
  | Construct f args k =>
      match construct_fn f args w with
      | (Ok v, w') => exec_on (k v) m w'
      | (Err e, w') => Some (Err e, m, w')
      end
  end.

End Run.

End Unchecked.

(** ** lib/path/script.js: a caller that is alone *)

Module LibPathMethods.
Import Loader.

(** [await this.loadedScript()]: the caller returns the cached module, or
    starts an import, which settles as the oracle says, and is resumed. *)
Definition await_loadedScript (import_ : nat -> outcome) (m : machine)
  : option (result value * machine) :=
  let c := length (callers m) in
  let m1 := LibPathScript.loadedScript m in
  match callers m1 !! c with
  | Some (Returned v) => Some (Ok v, m1)
  | Some (AwaitLoading p) =>
      m2 ← LibPathScript.step (Settle p (import_ p)) m1;
      m3 ← LibPathScript.step (Resume c) m2;
      Script.settled c m3
  | _ => None
  end.

End LibPathMethods.

(** ** path/script.js: the loader

    A machine of its own: the caller that starts the import does not wait
    for it but awaits [this.#loadedScript], a plain value, and a waiting
    caller returns the value its listener resolved the promise with. *)

Module PathScript.

Inductive status : Type :=
| AwaitValue (v : value)   (* suspended at [await v], [v] no promise: resumes with [v] *)
| AwaitLoadEvent           (* suspended on the promise its 'load' listener resolves *)
| Resolved (v : value)     (* the listener has called [resolve(v)] *)
| Returned (v : value).    (* the call's own promise is fulfilled with [v] *)

Inductive event : Type :=
| Call
| Settle (p : nat) (o : Loader.outcome)
| Resume (c : nat).

(** The private fields (nothing ever assigns [#nestedModules]), then the
    imports started so far, those still pending, and the callers. *)
Record machine : Type := Machine {
  p_nestedModules : value;
  p_scriptPath : string;
  p_loadingScript : option nat;
  p_loadedScript : value;
  p_eventEmitter : list nat;
  imports : nat;
  pending : list nat;
  callers : list status
}.

Definition SCRIPT_PATH_NOT_DEFINED_ERROR : error := Error "Script path not defined".

(** [constructor(scriptPath)] *)
Definition constructor (scriptPath : string) : result machine :=
  if String.eqb scriptPath "" then Err SCRIPT_PATH_NOT_DEFINED_ERROR
  else
    let scriptPath := if Loader.ends_with ".js" scriptPath then scriptPath
                      else scriptPath +:+ ".js" in
    Ok (Machine VUndefined scriptPath None VUndefined [] 0 [] []).

(** [this.#nestedModules.length > 0] *)
Definition hasNestedModule (m : machine) : result bool :=
  match p_nestedModules m with
  | VUndefined | VNull => Err (Unchecked.TYPE_ERROR_READ (p_nestedModules m) "length")
  | modules =>
      match get_prop modules "length" with
      | VNum n => Ok (0 <? n)%Z
      | _ => Ok false
      end
  end.

(** [get nestedModule()] *)
Definition nestedModule (m : machine) : result value :=
  match hasNestedModule m with
  | Err e => Err e
  | Ok false => Ok VNull
  | Ok true =>
      match p_nestedModules m with
      | VArr (first :: _) => Ok first
      | _ => Ok VUndefined
      end
  end.

(** [removeNestedModule()]: [this.#nestedModules.shift()] *)
Definition removeNestedModule (m : machine) : result machine :=
  match p_nestedModules m with
  | VUndefined | VNull => Err (Unchecked.TYPE_ERROR_READ (p_nestedModules m) "shift")
  | VArr items =>
      Ok (Machine (VArr (tail items)) (p_scriptPath m) (p_loadingScript m)
                  (p_loadedScript m) (p_eventEmitter m) (imports m) (pending m)
                  (callers m))
  | _ => Err (Error "TypeError: this.#nestedModules.shift is not a function")
  end.

Definition with_callers (cs : list status) (m : machine) : machine :=
  Machine (p_nestedModules m) (p_scriptPath m) (p_loadingScript m) (p_loadedScript m)
          (p_eventEmitter m) (imports m) (pending m) cs.

(** The synchronous part of [loadedScript()]. The caller that finds
    nothing loaded and nothing loading starts the import and then awaits
    [this.#loadedScript] as it is at that moment. *)
Definition loadedScript (m : machine) : machine :=
  let c := length (callers m) in
  if truthy (p_loadedScript m) then
    with_callers (callers m ++ [Returned (p_loadedScript m)]) m
  else match p_loadingScript m with
       | Some _ =>
           Machine (p_nestedModules m) (p_scriptPath m) (p_loadingScript m)
                   (p_loadedScript m) (p_eventEmitter m ++ [c]) (imports m) (pending m)
                   (callers m ++ [AwaitLoadEvent])
       | None =>
           let p := imports m in
           Machine (p_nestedModules m) (p_scriptPath m) (Some p) (p_loadedScript m)
                   (p_eventEmitter m) (S p) (pending m ++ [p])
                   (callers m ++ [AwaitValue (p_loadedScript m)])
       end.

(** The listener of caller [c] runs: [resolve(this.#loadedScript)]. *)
Definition wake (script : value) (c : nat) (cs : list status) : list status :=
  match cs !! c with
  | Some AwaitLoadEvent => <[c := Resolved script]> cs
  | _ => cs
  end.

(** The [.then] handler sets the module and emits 'load'; the [.catch]
    handler resets [#loadingScript] and rethrows into a promise nobody
    awaits. *)
Definition settle (p : nat) (o : Loader.outcome) (m : machine) : machine :=
  match o with
  | Loader.Fulfilled ref exports =>
      Machine (p_nestedModules m) (p_scriptPath m) (p_loadingScript m) (VObj ref exports)
              (p_eventEmitter m) (imports m) (Loader.remove_pending p (pending m))
              (foldr (wake (VObj ref exports)) (callers m) (p_eventEmitter m))
  | Loader.Rejected e =>
      Machine (p_nestedModules m) (p_scriptPath m) None (p_loadedScript m)
              (p_eventEmitter m) (imports m) (Loader.remove_pending p (pending m))
              (callers m)
  end.

(** The code after the [await]: the awaited value is returned. *)
Definition resume (c : nat) (m : machine) : option machine :=
  match callers m !! c with
  | Some (AwaitValue v) | Some (Resolved v) =>
      Some (with_callers (<[c := Returned v]> (callers m)) m)
  | _ => None
  end.

Definition step (ev : event) (m : machine) : option machine :=
  match ev with
  | Call => Some (loadedScript m)
  | Settle p o => if bool_decide (p ∈ pending m) then Some (settle p o m) else None
  | Resume c => resume c m
  end.

Fixpoint run (evs : list event) (m : machine) : option machine :=
  match evs with
  | [] => Some m
  | ev :: evs => step ev m ≫= run evs
  end.

Definition settled (c : nat) (m : machine) : option (result value * machine) :=
  match callers m !! c with
  | Some (Returned v) => Some (Ok v, m)
  | _ => None
  end.

(** [await this.loadedScript()] by a caller that is alone. The caller that
    starts the import is resumed at once, the import still pending; a
    caller that waits for the event is resumed after the pending import has
    settled as the oracle says, if that wakes it. *)
Definition await_loadedScript (import_ : nat -> Loader.outcome) (m : machine)
  : option (result value * machine) :=
  let c := length (callers m) in
  let m1 := loadedScript m in
  match callers m1 !! c with
  | Some (Returned v) => Some (Ok v, m1)
  | Some (AwaitValue _) => resume c m1 ≫= settled c
  | Some AwaitLoadEvent =>
      match pending m1 with
      | p :: _ =>
          m2 ← step (Settle p (import_ p)) m1;
          m3 ← resume c m2;
          settled c m3
      | [] => None
      end
  | _ => None
  end.

End PathScript.

(** ** lib/path/script.js: the script name and the nested modules *)

Module LibPathModules.

Definition SCRIPT_NOT_DEFINED_ERROR : error := Error "Script not defined".

(** [String.prototype.trim]: white space is dropped at both ends. *)
Fixpoint trim_start (s : string) : string :=
  match s with
  | EmptyString => EmptyString
  | String c rest => if is_whitespace c then trim_start rest else s
  end.

Fixpoint trim_end (s : string) : string :=
  match s with
  | EmptyString => EmptyString
  | String c rest =>
      match trim_end rest with
      | EmptyString => if is_whitespace c then EmptyString else String c EmptyString
      | rest' => String c rest'
      end
  end.

Definition trim (s : string) : string := trim_end (trim_start s).

(** The fields [#nestedModules], [#scriptName] and [#fullPath] (undefined
    until the getter has run). *)
Record instance : Type := Instance {
  p_nestedModules : list string;
  p_scriptName : string;
  p_fullPath : option string
}.

(** [constructor(scriptName, ...modules)] *)
Definition constructor (scriptName : string) (modules : list string) : result instance :=
  if String.eqb scriptName "" then Err SCRIPT_NOT_DEFINED_ERROR
  else
    let scriptName := trim scriptName in
    let scriptName := if Loader.ends_with ".js" scriptName then scriptName
                      else scriptName +:+ ".js" in
    Ok (Instance modules scriptName None).

(** [get fullPath()]: the value and the instance after the read. A cached
    path is returned if it is truthy; otherwise
    [[this.#nestedModules.join('/'), this.#scriptName].join('/')] is
    computed, stored and returned. *)
Definition fullPath (s : instance) : string * instance :=
  let compute :=
    let path := String.concat "/" [String.concat "/" (p_nestedModules s); p_scriptName s] in
    (path, Instance (p_nestedModules s) (p_scriptName s) (Some path)) in
  match p_fullPath s with
  | Some path => if negb (String.eqb path "") then (path, s) else compute
  | None => compute
  end.

(** [hasNestedModule()] *)
Definition hasNestedModule (s : instance) : bool := 0 <? length (p_nestedModules s).

(** [get nestedModule()]: [null] without modules, the first one otherwise. *)
Definition nestedModule (s : instance) : value :=
  if negb (hasNestedModule s) then VNull
  else match p_nestedModules s with
       | first :: _ => VStr first
       | [] => VUndefined
       end.

(** [removeNestedModule()]: [shift] drops the first module, if any. *)
Definition removeNestedModule (s : instance) : instance :=
  Instance (tail (p_nestedModules s)) (p_scriptName s) (p_fullPath s).

(** What a user of the instance does to its path: read it or drop a
    module. *)
Inductive access : Type :=
| ReadFullPath
| RemoveNestedModule.

Definition apply_access (s : instance) (a : access) : instance :=
  match a with
  | ReadFullPath => snd (fullPath s)
  | RemoveNestedModule => removeNestedModule s
  end.

(** How many modules a sequence of accesses drops. *)
Fixpoint removals (accesses : list access) : nat :=
  match accesses with
  | [] => 0
  | RemoveNestedModule :: rest => S (removals rest)
  | ReadFullPath :: rest => removals rest
  end.

End LibPathModules.

(** ** What holds of every state of the loader of load/script.js *)

Module Invariant.
Import Loader.

(** A state the instance can be in: some schedule of events leads to it
    from the state the constructor leaves. *)
Definition reachable (m : machine) : Prop :=
  exists href evs, LoadScript.run evs (fresh href) = Some m.

(** What the status of caller [c] says about the fields. *)
Definition caller_ok (m : machine) (c : nat) (st : status) : Prop :=
  match st with
  | AwaitLoading q => q ∈ pending m
  | AwaitLoadEvent => c ∈ p_eventEmitter m /\ truthy (p_loadedScript m) = false
  | ReadyReturn => truthy (p_loadedScript m) = true
  | Returned v => v = p_loadedScript m /\ truthy (p_loadedScript m) = true
  | ReadyThrow _ | Threw _ => True
  end.

Record inv (m : machine) : Prop := Inv {
  inv_pending :
    pending m = [] \/
    exists p, pending m = [p] /\ p_loadingScript m = Some p /\
              truthy (p_loadedScript m) = false;
  inv_callers : forall c st, callers m !! c = Some st -> caller_ok m c st
}.

(** A listener that runs turns a caller waiting for the event into a ready
    one and leaves every other status alone. *)
Definition woken (st : status) : status :=
  match st with
  | AwaitLoadEvent => ReadyReturn
  | _ => st
  end.

(** The events of a schedule in which no import is rejected, and those in
    which none is fulfilled. *)
Definition is_rejection (ev : event) : bool :=
  match ev with Settle _ (Rejected _) => true | _ => false end.

Definition is_fulfilment (ev : event) : bool :=
  match ev with Settle _ (Fulfilled _ _) => true | _ => false end.

(** A caller that is still suspended inside [loadedScript]. *)
Definition is_suspended (st : status) : bool :=
  match st with AwaitLoading _ | AwaitLoadEvent => true | _ => false end.

(** A caller the failure of a load has reached. *)
Definition has_failed (st : status) : bool :=
  match st with ReadyThrow _ | Threw _ => true | _ => false end.

(** What holds in addition as long as no import has been rejected: the
    import has run once if anyone has called, and not at all otherwise; no
    caller has been handed a failure. *)
Record calm (m : machine) : Prop := Calm {
  calm_fresh : callers m = [] ->
               imports m = 0 /\ p_loadingScript m = None /\
               truthy (p_loadedScript m) = false;
  calm_called : callers m <> [] -> imports m = 1 /\ is_Some (p_loadingScript m);
  calm_callers : forall c st, callers m !! c = Some st -> has_failed st = false
}.

End Invariant.

(** ** A concrete module, for the examples

    The loaded resource of the scenario: a function [add], a class
    [Vector] whose constructor stores its argument in [x], a class [Pair]
    with two parameters, and plain objects. The world of the module's
    functions is the list of the invocations made so far, each with the
    function called and the arguments it received. *)

Module Examples.
Import Loader Async Script.

Definition world : Type := list (nat * list value).

Definition add : func := Func 1 "(a, b) => a + b" 2.
Definition Vector : func := Func 2 "class {constructor(x){this.x = x}}" 1.
Definition Pair : func := Func 3 "class Pair {constructor(a, b){this.a = a; this.b = b}}" 2.
Definition greet : func := Func 4 "function greet(name) { return name; }" 1.

(** [args[i]]: a parameter that received no argument is [undefined]. *)
Definition argument (i : nat) (args : list value) : value :=
  default VUndefined (args !! i).

(** [f(...args)] for the functions of the module. *)
Definition call_fn (f : func) (args : list value) (w : world) : result value * world :=
  let w' := w ++ [(fn_ref f, args)] in
  if fn_ref f =? fn_ref add then
    match argument 0 args, argument 1 args with
    | VNum a, VNum b => (Ok (VNum (a + b)), w')
    | _, _ => (Ok VNaN, w')
    end
  else if fn_ref f =? fn_ref greet then (Ok (argument 0 args), w')
  else (Err (Error "TypeError: Class constructor cannot be invoked without 'new'"), w).

(** [new f(...args)]: the instance gets a reference of its own. *)
Definition construct_fn (f : func) (args : list value) (w : world) : result value * world :=
  let w' := w ++ [(fn_ref f, args)] in
  let ref := 100 + length w in
  if fn_ref f =? fn_ref Vector then
    (Ok (VObj ref [("x", argument 0 args)]), w')
  else if fn_ref f =? fn_ref Pair then
    (Ok (VObj ref [("a", argument 0 args); ("b", argument 1 args)]), w')
  else (Ok (VObj ref []), w').

Definition mathutils_exports : list (string * value) :=
  [ ("add", VFun add);
    ("Vector", VFun Vector);
    ("Pair", VFun Pair);
    ("a", VObj 11 [("b", VObj 12 [])]);
    ("config", VObj 13 [("retries", VNum 0); ("label", VStr ""); ("debug", VBool false);
                        ("parent", VNull);
                        ("limits", VObj 14 [("max", VNum 0)])]);
    ("text", VObj 15 [("greet", VFun greet)]) ].

Definition mathutils : outcome := Fulfilled 10 mathutils_exports.

(** Every import of the instance gives the module. *)
Definition import_ (n : nat) : outcome := mathutils.

Definition href : string := "file:///mathutils.js".

(** One caller has loaded the module and returned. *)
Definition load_events : list event := [Call; Settle 0 mathutils; Resume 0].

Definition loaded : machine :=
  Machine href (Some 0) (VObj 10 mathutils_exports) [] 1 []
          [Returned (VObj 10 mathutils_exports)].

(** One caller started the import, a second one waits for the event. *)
Definition loading : machine :=
  Machine href (Some 0) VUndefined [1] 1 [0] [AwaitLoading 0; AwaitLoadEvent].

Definition boom : error := Error "Cannot find module".

(** [needle] occurs in [s]. *)
Fixpoint occurs (needle s : string) : bool :=
  String.prefix needle s ||
  match s with
  | EmptyString => false
  | String _ rest => occurs needle rest
  end.

End Examples.

(** A second module, for the edge cases: a falsy export, a class written
    without white space after the keyword, an arrow function, and plain
    data. *)

Module MoreExamples.
Import Loader Async Script.

Definition Anonymous : func := Func 21 "class{constructor(x){this.x=x}}" 1.
Definition arrow : func := Func 22 "(x) => x" 1.
Definition Legacy : func := Func 23 "function Legacy(x) { this.x = x; }" 1.

Definition exports : list (string * value) :=
  [ ("count", VNum 0);
    ("Anonymous", VFun Anonymous);
    ("arrow", VFun arrow);
    ("Legacy", VFun Legacy);
    ("version", VStr "1.0");
    ("settings", VObj 31 [("mode", VStr "fast"); ("hook", VNull);
                          ("apply", VFun arrow)]) ].

Definition module_ : outcome := Fulfilled 30 exports.

Definition href : string := "file:///edge.js".

Definition loaded : machine :=
  Machine href (Some 0) (VObj 30 exports) [] 1 [] [Returned (VObj 30 exports)].

(** The first import is rejected, every later one gives the module. *)
Definition flaky_import (n : nat) : outcome :=
  match n with
  | 0 => Rejected Examples.boom
  | _ => module_
  end.

End MoreExamples.

Module LoaderFacts.
Import Loader Invariant.

Lemma wake_lookup (c c' : nat) (cs : list status) :
  wake c cs !! c' = if decide (c = c') then woken <$> cs !! c' else cs !! c'.
Proof.
  unfold wake. destruct (decide (c = c')) as [->|Hne].
  - destruct (cs !! c') as [st|] eqn:Hc; [|by rewrite Hc].
    destruct st; simpl; try by rewrite Hc.
    apply list_lookup_insert_eq. by eapply lookup_lt_Some.
  - destruct (cs !! c) as [[]|]; try done.
    by apply list_lookup_insert_ne.
Qed.

Lemma woken_idem (st : status) : woken (woken st) = woken st.
Proof. by destruct st. Qed.

Lemma emit_load_lookup (ls : list nat) (cs : list status) (c : nat) :
  emit_load ls cs !! c = if decide (c ∈ ls) then woken <$> cs !! c else cs !! c.
Proof.
  induction ls as [|l ls IH]; simpl.
  - destruct (decide (c ∈ [])) as [H|]; [by apply not_elem_of_nil in H|done].
  - rewrite wake_lookup, IH.
    destruct (decide (l = c)) as [->|Hne], (decide (c ∈ ls)) as [Hin|Hnin];
      case_decide as Hc; try done.
    + destruct (cs !! c); simpl; [by rewrite woken_idem|done].
    + exfalso. apply Hc. by right.
    + exfalso. apply Hc. by left.
    + exfalso. apply Hc. by right.
    + apply elem_of_cons in Hc as [?|?]; congruence.
Qed.

Lemma settle_chain_lookup (p : nat) (s : status) (cs : list status) (c : nat) :
  settle_chain p s cs !! c =
  (fun st => match st with
             | AwaitLoading q => if q =? p then s else st
             | _ => st
             end) <$> cs !! c.
Proof. unfold settle_chain. apply list_lookup_fmap. Qed.

Lemma remove_pending_single (p : nat) : remove_pending p [p] = [].
Proof. unfold remove_pending. apply filter_singleton_False; [exact []|]. by intros H. Qed.

Lemma lookup_snoc_cases {A : Type} (l : list A) (x : A) (c : nat) (y : A) :
  (l ++ [x]) !! c = Some y ->
  l !! c = Some y \/ (c = length l /\ y = x).
Proof.
  intros H. apply lookup_app_Some in H as [H|[Hle H]]; [by left|right].
  destruct (c - length l) as [|k] eqn:Hk; simpl in H; [|by destruct k].
  split; [lia|congruence].
Qed.

Lemma inv_fresh (href : string) : inv (fresh href).
Proof. split; [by left|]. intros c st H. by destruct c. Qed.

Lemma inv_loadedScript (m : machine) : inv m -> inv (LoadScript.loadedScript m).
Proof.
  intros [Hp Hc]. unfold LoadScript.loadedScript.
  destruct (truthy (p_loadedScript m)) eqn:Ht.
  - (* already loaded *)
    split; simpl.
    + destruct Hp as [?|(p & _ & _ & ?)]; [by left|done].
    + intros c st [H|[-> ->]]%lookup_snoc_cases.
      * apply Hc in H. destruct st; exact H.
      * done.
  - assert (pending m = [] \/ exists p, pending m = [p] /\ p_loadingScript m = Some p)
      as Hp' by (destruct Hp as [?|(p & ? & ? & _)]; eauto).
    clear Hp.
    destruct (p_loadingScript m) as [q|] eqn:Hl.
    + (* already loading: one more listener *)
      split; simpl.
      * rewrite Ht. destruct Hp' as [?|(p & ? & ?)]; [by left|].
        right. exists p. by simplify_eq.
      * intros c st [H|[-> ->]]%lookup_snoc_cases.
        -- apply Hc in H. destruct st; try exact H.
           destruct H as [H ?]. split; [|done]. apply elem_of_app. by left.
        -- split; [|done]. apply elem_of_app. right. by left.
    + (* idle: the import starts *)
      assert (pending m = []) as Hnil.
      { destruct Hp' as [?|(p & _ & ?)]; [done|congruence]. }
      split; simpl.
      * right. exists (imports m). by rewrite Hnil, Ht.
      * intros c st [H|[-> ->]]%lookup_snoc_cases.
        -- apply Hc in H. destruct st; try exact H.
           simpl in H. rewrite Hnil in H. by apply not_elem_of_nil in H.
        -- simpl. apply elem_of_app. right. by left.
Qed.

Lemma inv_settle (m : machine) (p : nat) (o : outcome) :
  inv m -> p ∈ pending m -> inv (settle p o m).
Proof.
  intros [Hp Hc] Hin.
  destruct Hp as [Hnil|(q & Hq & Hl & Ht)].
  { rewrite Hnil in Hin. by apply not_elem_of_nil in Hin. }
  rewrite Hq in Hin. apply list_elem_of_singleton in Hin as ->.
  destruct o as [ref exports|e]; split; simpl;
    rewrite ?Hq, ?remove_pending_single; try by left.
  - intros c st. rewrite settle_chain_lookup, emit_load_lookup.
    destruct (callers m !! c) as [st0|] eqn:Hst0;
      [|by case_decide].
    pose proof (Hc _ _ Hst0) as Hok.
    intros Hst. destruct st0; simpl in Hok.
    + rewrite Hq in Hok. apply list_elem_of_singleton in Hok as ->.
      case_decide; simpl in Hst; rewrite Nat.eqb_refl in Hst; by simplify_eq.
    + destruct Hok as [Hok _]. rewrite decide_True in Hst by done.
      simpl in Hst. by simplify_eq.
    + congruence.
    + case_decide; simpl in Hst; by simplify_eq.
    + destruct Hok; congruence.
    + case_decide; simpl in Hst; by simplify_eq.
  - intros c st. rewrite settle_chain_lookup.
    destruct (callers m !! c) as [st0|] eqn:Hst0; [|done].
    pose proof (Hc _ _ Hst0) as Hok.
    simpl. intros Hst. destruct st0; simpl in Hok.
    + rewrite Hq in Hok. apply list_elem_of_singleton in Hok as ->.
      rewrite Nat.eqb_refl in Hst. by simplify_eq.
    + by simplify_eq.
    + by simplify_eq.
    + by simplify_eq.
    + by simplify_eq.
    + by simplify_eq.
Qed.

Lemma inv_resume (m m' : machine) (c : nat) :
  inv m -> resume c m = Some m' -> inv m'.
Proof.
  intros [Hp Hc]. unfold resume.
  destruct (callers m !! c) as [st|] eqn:Hst; [|done].
  pose proof (Hc _ _ Hst) as Hok.
  assert (forall s, caller_ok m c s ->
            inv (set_caller c s m)) as Hset.
  { intros s Hs. split; simpl; [done|].
    intros c' st'. destruct (decide (c = c')) as [<-|Hne].
    - rewrite list_lookup_insert_eq by (by eapply lookup_lt_Some).
      intros [= <-]. by destruct s.
    - rewrite list_lookup_insert_ne by done. intros H. apply Hc in H.
      by destruct st'. }
  destruct st; try done; intros [= <-]; apply Hset; simpl; done.
Qed.

Lemma inv_step (ev : event) (m m' : machine) :
  inv m -> LoadScript.step ev m = Some m' -> inv m'.
Proof.
  intros Hinv. destruct ev as [|p o|c]; simpl.
  - intros [= <-]. by apply inv_loadedScript.
  - case_bool_decide; [|done]. intros [= <-]. by apply inv_settle.
  - by apply inv_resume.
Qed.

Lemma inv_run (evs : list event) (m m' : machine) :
  inv m -> LoadScript.run evs m = Some m' -> inv m'.
Proof.
  revert m. induction evs as [|ev evs IH]; intros m Hinv; simpl.
  - by intros [= <-].
  - destruct (Loader.step LoadScript.loadedScript ev m) as [m1|] eqn:Hstep; [|done].
    simpl. apply IH. by eapply inv_step.
Qed.

Lemma reachable_inv (m : machine) : reachable m -> inv m.
Proof. intros (href & evs & Hrun). eapply inv_run; [apply inv_fresh|done]. Qed.

Lemma run_app (evs1 evs2 : list event) (m : machine) :
  LoadScript.run (evs1 ++ evs2) m = LoadScript.run evs1 m ≫= LoadScript.run evs2.
Proof.
  revert m. induction evs1 as [|ev evs1 IH]; intros m; [done|].
  simpl. destruct (Loader.step LoadScript.loadedScript ev m); simpl; [apply IH|done].
Qed.

(** Once a module is loaded no event changes the cached module, and no
    event starts an import. *)
Lemma loaded_step (ev : event) (m m' : machine) :
  inv m -> truthy (p_loadedScript m) = true ->
  LoadScript.step ev m = Some m' ->
  p_loadedScript m' = p_loadedScript m /\ imports m' = imports m /\ pending m' = pending m.
Proof.
  intros [Hp _] Ht. destruct ev as [|p o|c]; simpl.
  - intros [= <-]. unfold LoadScript.loadedScript. by rewrite Ht.
  - case_bool_decide as Hin; [|done].
    destruct Hp as [Hnil|(q & _ & _ & ?)]; [|congruence].
    rewrite Hnil in Hin. by apply not_elem_of_nil in Hin.
  - unfold resume. destruct (callers m !! c) as [[]|]; try done; by intros [= <-].
Qed.

Lemma loaded_is_terminal (evs : list event) (m m' : machine) :
  inv m -> truthy (p_loadedScript m) = true ->
  LoadScript.run evs m = Some m' ->
  p_loadedScript m' = p_loadedScript m /\ imports m' = imports m.
Proof.
  revert m. induction evs as [|ev evs IH]; intros m Hinv Ht; simpl.
  - by intros [= <-].
  - destruct (Loader.step LoadScript.loadedScript ev m) as [m1|] eqn:Hstep; [|done].
    simpl. intros Hrun.
    destruct (loaded_step _ _ _ Hinv Ht Hstep) as (Hl & Hi & _).
    apply IH in Hrun as [? ?]; [split; congruence|by eapply inv_step|congruence].
Qed.

(** However many callers enter an idle instance, one of them starts an
    import and the others wait for it. *)
Lemma calls_after_import (n : nat) (m : machine) :
  inv m -> truthy (p_loadedScript m) = false -> is_Some (p_loadingScript m) ->
  exists m', LoadScript.run (replicate n Call) m = Some m' /\
             imports m' = imports m /\ pending m' = pending m.
Proof.
  revert m. induction n as [|n IH]; intros m Hinv Ht [q Hq]; simpl; [by eauto|].
  assert (LoadScript.loadedScript m = listen_for_load m) as Hm
    by (unfold LoadScript.loadedScript; by rewrite Ht, Hq).
  destruct (IH (listen_for_load m)) as (m' & Hrun & Hi & Hp).
  - rewrite <-Hm. by apply inv_loadedScript.
  - done.
  - simpl. by rewrite Hq.
  - exists m'. by rewrite Hm.
Qed.

Lemma calls_when_idle (n : nat) (m : machine) :
  inv m -> truthy (p_loadedScript m) = false -> p_loadingScript m = None ->
  exists m', LoadScript.run (replicate (S n) Call) m = Some m' /\
             imports m' = S (imports m) /\ pending m' = [imports m].
Proof.
  intros Hinv Ht Hl.
  assert (LoadScript.loadedScript m = start_import m) as Hm
    by (unfold LoadScript.loadedScript; by rewrite Ht, Hl).
  assert (pending m = []) as Hnil.
  { destruct Hinv as [[?|(p & _ & ? & _)] _]; [done|congruence]. }
  destruct (calls_after_import n (start_import m)) as (m' & Hrun & Hi & Hp).
  - rewrite <-Hm. by apply inv_loadedScript.
  - done.
  - by eexists.
  - exists m'. simpl. rewrite Hm. simpl in *. by rewrite Hnil in Hp.
Qed.

(** *** Construction *)

(** A script path is required before anything is loaded: the constructor
    throws on an empty path, and otherwise leaves an instance that has
    started no import. *)
Lemma constructor_requires_a_path (pathToFileURL : string -> string) (scriptPath : string) :
  constructor pathToFileURL "" = Err SCRIPT_PATH_NOT_DEFINED_ERROR /\
  (scriptPath <> "" ->
   exists href, constructor pathToFileURL scriptPath = Ok (fresh href) /\
                imports (fresh href) = 0 /\ pending (fresh href) = []).
Proof.
  split; [done|]. intros Hne. unfold constructor.
  destruct (String.eqb_spec scriptPath ""); [done|]. by eexists.
Qed.

Example constructor_adds_the_extension :
  constructor (fun p => "file://" +:+ p) "/lib/mathutils" = Ok (fresh "file:///lib/mathutils.js") /\
  constructor (fun p => "file://" +:+ p) "/lib/mathutils.js" = Ok (fresh "file:///lib/mathutils.js").
Proof. split; reflexivity. Qed.

(** *** Single flight *)

Lemma step_settle_inv (m m1 : machine) (p : nat) (o : outcome) :
  LoadScript.step (Settle p o) m = Some m1 -> p ∈ pending m /\ m1 = settle p o m.
Proof.
  unfold LoadScript.step, Loader.step. case_bool_decide; [|done].
  intros [= <-]. done.
Qed.


Lemma wake_length (c : nat) (cs : list status) : length (wake c cs) = length cs.
Proof. unfold wake. destruct (cs !! c) as [[]|]; by rewrite ?length_insert. Qed.

Lemma emit_load_length (ls : list nat) (cs : list status) :
  length (emit_load ls cs) = length cs.
Proof. induction ls as [|l ls IH]; simpl; [done|]. by rewrite wake_length. Qed.

Lemma settle_callers_length (p : nat) (o : outcome) (m : machine) :
  length (callers (settle p o m)) = length (callers m).
Proof.
  destruct o; simpl; unfold settle_chain;
    by rewrite length_fmap, ?emit_load_length.
Qed.

Lemma nil_length_iff {A : Type} (l : list A) : l = [] <-> length l = 0.
Proof. by destruct l. Qed.

Lemma calm_fresh_instance (href : string) : calm (fresh href).
Proof. split; [done|done|]. intros c st H. by destruct c. Qed.

Lemma calm_step (ev : event) (m m' : machine) :
  inv m -> calm m -> is_rejection ev = false ->
  LoadScript.step ev m = Some m' -> calm m'.
Proof.
  intros Hinv [Hf Hcalled Hcs] Hev Hstep.
  destruct ev as [|p [ref ex|e]|c]; try done.
  - (* a caller enters *)
    simpl in Hstep. injection Hstep as <-. unfold LoadScript.loadedScript.
    destruct (callers m) as [|st0 cs] eqn:Hcallers.
    + destruct (Hf eq_refl) as (Hi & Hl & Ht). rewrite Ht, Hl.
      split; simpl; rewrite Hcallers, ?Hi; [done|by eauto|].
      intros [|c] st; simpl; [by intros [= <-]|done].
    + destruct Hcalled as [Hi [q Hq]]; [done|].
      assert (forall st1 m1, has_failed st1 = false ->
                imports m1 = imports m -> p_loadingScript m1 = p_loadingScript m ->
                callers m1 = callers m ++ [st1] -> calm m1) as Hgrow.
      { intros st1 m1 Hst1 Hi1 Hl1 Hc1. split.
        - rewrite Hc1, Hcallers. done.
        - intros _. rewrite Hi1, Hl1, Hq. by eauto.
        - intros c st. rewrite Hc1.
          intros [H|[_ ->]]%lookup_snoc_cases; [|done].
          eapply Hcs. by rewrite Hcallers in H. }
      rewrite Hq. destruct (truthy (p_loadedScript m)).
      * apply (Hgrow (Returned (p_loadedScript m))); simpl; by rewrite ?Hcallers.
      * apply (Hgrow AwaitLoadEvent); simpl; by rewrite ?Hcallers.
  - (* the import is fulfilled *)
    apply step_settle_inv in Hstep as [Hin ->].
    assert (callers m <> []) as Hne.
    { intros Hnil. destruct (Hf Hnil) as (_ & Hl & _).
      destruct Hinv as [[Hp|(q & _ & ? & _)] _]; [|congruence].
      rewrite Hp in Hin. by apply not_elem_of_nil in Hin. }
    destruct (Hcalled Hne) as [Hi Hl].
    assert (callers (settle p (Fulfilled ref ex) m) <> []) as Hne'.
    { rewrite nil_length_iff, settle_callers_length, <-nil_length_iff. done. }
    split; [done|done|].
    intros c st. simpl. rewrite settle_chain_lookup, emit_load_lookup.
    destruct (callers m !! c) as [st0|] eqn:Hst0; [|by case_decide].
    pose proof (Hcs _ _ Hst0) as Hok.
    case_decide; simpl; intros [= <-]; destruct st0; simpl in *; try done;
      by destruct (_ =? _).
  - (* a caller is resumed *)
    simpl in Hstep. unfold resume in Hstep.
    destruct (callers m !! c) as [st0|] eqn:Hst0; [|done].
    pose proof (Hcs _ _ Hst0) as Hok.
    destruct st0; try done. injection Hstep as <-.
    assert (callers m <> []) as Hne by (intros Hnil; by rewrite Hnil in Hst0).
    split; simpl.
    + rewrite nil_length_iff, length_insert, <-nil_length_iff. done.
    + intros _. by apply Hcalled.
    + intros c' st. destruct (decide (c = c')) as [<-|Hcc].
      * rewrite list_lookup_insert_eq by (by eapply lookup_lt_Some). by intros [= <-].
      * rewrite list_lookup_insert_ne by done. apply Hcs.
Qed.

Lemma calm_run (evs : list event) (m m' : machine) :
  inv m -> calm m -> existsb is_rejection evs = false ->
  LoadScript.run evs m = Some m' -> calm m'.
Proof.
  revert m. induction evs as [|ev evs IH]; intros m Hinv Hcalm Hevs; simpl in *.
  - by intros [= <-].
  - apply orb_false_iff in Hevs as [Hev Hevs].
    destruct (Loader.step LoadScript.loadedScript ev m) as [m1|] eqn:Hstep; [|done].
    simpl. apply IH; [by eapply inv_step|by eapply calm_step|done].
Qed.

(** X1: single flight on load/script.js and load/helpers.js. Along every
    schedule of events from a fresh instance in which no import is
    rejected, however the callers interleave, the dynamic import has been
    started once if any caller has entered, at most one load is in flight,
    every caller that has returned has returned the cached module, and
    once the module is loaded every caller has returned it or is about to:
    none is left suspended. *)
Theorem single_flight (href : string) (evs : list event) (m : machine) :
  LoadScript.run evs (fresh href) = Some m ->
  existsb is_rejection evs = false ->
  (callers m <> [] -> imports m = 1) /\
  length (pending m) <= 1 /\
  (forall c v, callers m !! c = Some (Returned v) -> v = p_loadedScript m) /\
  (truthy (p_loadedScript m) = true ->
   forall c st, callers m !! c = Some st ->
     st = ReadyReturn \/ st = Returned (p_loadedScript m)).
Proof.
  intros Hrun Hevs.
  assert (inv m) as Hinv by (eapply inv_run; [apply inv_fresh|done]).
  assert (calm m) as Hcalm
    by (eapply calm_run; [apply inv_fresh|apply calm_fresh_instance|done..]).
  split; [|split; [|split]].
  - intros Hne. by apply Hcalm.
  - destruct Hinv as [[->|(p & -> & _)] _]; simpl; lia.
  - intros c v Hc. by apply (inv_callers _ Hinv) in Hc as [-> _].
  - intros Ht c st Hc.
    pose proof (inv_callers _ Hinv _ _ Hc) as Hok.
    pose proof (calm_callers _ Hcalm _ _ Hc) as Hnf.
    destruct st; simpl in *; try done.
    + destruct Hinv as [[Hp|(q & _ & _ & ?)] _]; [|congruence].
      rewrite Hp in Hok. by apply not_elem_of_nil in Hok.
    + destruct Hok; congruence.
    + by left.
    + right. by destruct Hok as [-> _].
Qed.

Lemma single_flight_witness :
  exists m,
    LoadScript.run [Call; Call; Call; Settle 0 Examples.mathutils; Resume 1; Resume 0]
                   (fresh Examples.href) = Some m /\
    imports m = 1 /\
    callers m = [Returned (p_loadedScript m); Returned (p_loadedScript m); ReadyReturn].
Proof.
  eexists. split; [reflexivity|].
  destruct (single_flight Examples.href
              [Call; Call; Call; Settle 0 Examples.mathutils; Resume 1; Resume 0]
              _ eq_refl eq_refl) as (Hi & _ & _ & _).
  split; [apply Hi; discriminate|reflexivity].
Defined.

(** *** Failure and retry *)

Lemma reject_step (m m1 : machine) (p : nat) (e : error) :
  inv m -> LoadScript.step (Settle p (Rejected e)) m = Some m1 ->
  inv m1 /\ p_loadingScript m1 = None /\ pending m1 = [] /\
  truthy (p_loadedScript m1) = false.
Proof.
  intros Hinv Hstep. split; [by eapply inv_step|].
  simpl in Hstep. case_bool_decide as Hin; [|done]. injection Hstep as <-.
  destruct Hinv as [[Hnil|(q & Hq & _ & Ht)] _].
  { rewrite Hnil in Hin. by apply not_elem_of_nil in Hin. }
  rewrite Hq in Hin. apply list_elem_of_singleton in Hin as ->.
  simpl. by rewrite Hq, remove_pending_single.
Qed.

(** C6: when a load fails the [.catch] handler sets [#loadingScript] back
    to [null] and nothing is left in flight, so the next callers of
    [loadedScript], however many enter before the new import settles,
    start exactly one new import; and once a module is loaded, no schedule
    of events starts an import or changes the cached module. *)
Theorem failed_load_is_cleared_and_retried (m : machine) :
  reachable m ->
  (forall p e m1,
     LoadScript.step (Settle p (Rejected e)) m = Some m1 ->
     p_loadingScript m1 = None /\ pending m1 = [] /\
     forall n, exists m2,
       LoadScript.run (replicate (S n) Call) m1 = Some m2 /\
       imports m2 = S (imports m1) /\ pending m2 = [imports m1]) /\
  (truthy (p_loadedScript m) = true ->
   forall evs m',
     LoadScript.run evs m = Some m' ->
     imports m' = imports m /\ p_loadedScript m' = p_loadedScript m).
Proof.
  intros Hinv%reachable_inv. split.
  - intros p e m1 Hstep.
    destruct (reject_step _ _ _ _ Hinv Hstep) as (Hinv1 & Hl & Hp & Ht).
    split; [done|]. split; [done|].
    intros n. by apply calls_when_idle.
  - intros Ht evs m' Hrun.
    by destruct (loaded_is_terminal _ _ _ Hinv Ht Hrun).
Qed.

Lemma loading_reachable : reachable Examples.loading.
Proof. exists Examples.href, [Call; Call]. reflexivity. Qed.

Lemma loaded_reachable : reachable Examples.loaded.
Proof. exists Examples.href, Examples.load_events. reflexivity. Qed.

Lemma failed_load_is_cleared_and_retried_witness :
  (exists m1 m2,
     LoadScript.step (Settle 0 (Rejected Examples.boom)) Examples.loading = Some m1 /\
     p_loadingScript m1 = None /\ pending m1 = [] /\
     LoadScript.run [Call; Call; Call] m1 = Some m2 /\
     imports m2 = 2 /\ pending m2 = [1]) /\
  (forall m',
     LoadScript.run [Call; Resume 1; Call] Examples.loaded = Some m' ->
     imports m' = 1 /\ p_loadedScript m' = p_loadedScript Examples.loaded).
Proof.
  split.
  - destruct (failed_load_is_cleared_and_retried Examples.loading loading_reachable)
      as [Hfail _].
    destruct (Hfail 0 Examples.boom _ eq_refl) as (Hl & Hp & Hretry).
    destruct (Hretry 2) as (m2 & Hrun & Hi & Hpend).
    eexists _, m2.
    split; [reflexivity|]. split; [exact Hl|]. split; [exact Hp|].
    split; [exact Hrun|]. split; [exact Hi|exact Hpend].
  - intros m'.
    destruct (failed_load_is_cleared_and_retried Examples.loaded loaded_reachable)
      as [_ Hloaded].
    apply (Hloaded eq_refl).
Defined.

(** A caller waiting for the 'load' event is woken by nothing but a
    fulfilled import. *)
Lemma waiter_step (ev : event) (m m' : machine) (c : nat) :
  is_fulfilment ev = false ->
  LoadScript.step ev m = Some m' ->
  callers m !! c = Some AwaitLoadEvent ->
  callers m' !! c = Some AwaitLoadEvent.
Proof.
  intros Hev Hstep Hc. destruct ev as [|p [ref ex|e]|c']; simpl in *; try done.
  - injection Hstep as <-. unfold LoadScript.loadedScript.
    destruct (truthy _); [|destruct (p_loadingScript m)]; simpl;
      by apply lookup_app_l_Some.
  - case_bool_decide; [|done]. injection Hstep as <-. simpl.
    by rewrite settle_chain_lookup, Hc.
  - unfold resume in Hstep.
    destruct (decide (c' = c)) as [->|Hne]; [by rewrite Hc in Hstep|].
    destruct (callers m !! c') as [[]|]; try done;
      injection Hstep as <-; simpl; by rewrite list_lookup_insert_ne.
Qed.

Lemma waiter_run (evs : list event) (m m' : machine) (c : nat) :
  existsb is_fulfilment evs = false ->
  LoadScript.run evs m = Some m' ->
  callers m !! c = Some AwaitLoadEvent ->
  callers m' !! c = Some AwaitLoadEvent.
Proof.
  revert m. induction evs as [|ev evs IH]; intros m Hevs; simpl in *.
  - by intros [= <-].
  - apply orb_false_iff in Hevs as [Hev Hevs].
    destruct (Loader.step LoadScript.loadedScript ev m) as [m1|] eqn:Hstep; [|done].
    simpl. intros Hrun Hc. eapply IH; [done..|]. by eapply waiter_step.
Qed.

(** C2, as the code has it: a failed load reaches the caller that started
    it, and only that caller. The initiator, suspended at
    [await this.#loadingScript], is resumed with the rejection and throws
    it; a caller suspended on the 'load' event stays suspended through every
    later schedule of events in which no import is fulfilled. *)
Theorem failure_reaches_the_initiator_only (m m1 : machine) (p : nat) (e : error) :
  LoadScript.step (Settle p (Rejected e)) m = Some m1 ->
  (forall c, callers m !! c = Some (AwaitLoading p) ->
     callers m1 !! c = Some (ReadyThrow e) /\
     exists m2, LoadScript.step (Resume c) m1 = Some m2 /\
                callers m2 !! c = Some (Threw e)) /\
  (forall c evs m2,
     callers m !! c = Some AwaitLoadEvent ->
     existsb is_fulfilment evs = false ->
     LoadScript.run evs m1 = Some m2 ->
     callers m2 !! c = Some AwaitLoadEvent /\ LoadScript.step (Resume c) m2 = None).
Proof.
  intros Hstep. split.
  - intros c Hc. apply step_settle_inv in Hstep as [_ ->].
    assert (callers (settle p (Rejected e) m) !! c = Some (ReadyThrow e)) as Hr.
    { simpl. by rewrite settle_chain_lookup, Hc; simpl; rewrite Nat.eqb_refl. }
    split; [done|]. unfold LoadScript.step, Loader.step, resume. rewrite Hr.
    eexists. split; [done|]. unfold set_caller, callers at 1.
    apply list_lookup_insert_eq. by eapply lookup_lt_Some.
  - intros c evs m2 Hc Hevs Hrun.
    assert (callers m2 !! c = Some AwaitLoadEvent) as Hw.
    { eapply waiter_run; [done..|]. by eapply (waiter_step (Settle p (Rejected e))). }
    split; [done|]. simpl. unfold resume. by rewrite Hw.
Qed.

Lemma failure_reaches_the_initiator_only_witness :
  exists m1,
    LoadScript.step (Settle 0 (Rejected Examples.boom)) Examples.loading = Some m1 /\
    callers m1 !! 0 = Some (ReadyThrow Examples.boom) /\
    forall m2, LoadScript.run [Resume 0; Call; Settle 1 (Rejected Examples.boom)] m1 = Some m2 ->
               callers m2 !! 1 = Some AwaitLoadEvent /\ LoadScript.step (Resume 1) m2 = None.
Proof.
  eexists. split; [reflexivity|].
  destruct (failure_reaches_the_initiator_only Examples.loading _ 0 Examples.boom eq_refl)
    as [Hinit Hwait].
  split.
  - apply (Hinit 0 eq_refl).
  - intros m2 Hrun.
    apply (Hwait 1 [Resume 0; Call; Settle 1 (Rejected Examples.boom)] m2
                 eq_refl eq_refl Hrun).
Defined.

(** C2, as stated, fails: the import started by caller 0 is rejected while
    caller 1 waits for it. Caller 0 throws the rejection; caller 1 has
    received nothing, is still suspended and cannot be resumed, although
    no load is in flight any more. *)
Lemma failure_leaves_the_waiter_suspended :
  (fun m => (callers m, pending m, p_loadingScript m,
             is_suspended <$> callers m !! 1, has_failed <$> callers m !! 1,
             LoadScript.step (Resume 1) m))
    <$> LoadScript.run [Call; Call; Settle 0 (Rejected Examples.boom); Resume 0]
                       (fresh Examples.href)
  = Some ([Threw Examples.boom; AwaitLoadEvent], [], None, Some true, Some false, None).
Proof. reflexivity. Qed.

End LoaderFacts.

(** ** lib/path/script.js: no single flight *)

Module LibPathFacts.
Import Loader.

Lemma calls_import_each (n : nat) (m : machine) :
  truthy (p_loadedScript m) = false ->
  exists m', LibPathScript.run (replicate n Call) m = Some m' /\
             imports m' = n + imports m /\
             length (pending m') = n + length (pending m) /\
             length (callers m') = n + length (callers m).
Proof.
  revert m. induction n as [|n IH]; intros m Ht; simpl; [by eauto|].
  assert (LibPathScript.loadedScript m = start_import m) as Hm.
  { unfold LibPathScript.loadedScript. rewrite Ht. by destruct (p_loadingScript m). }
  destruct (IH (start_import m) Ht) as (m' & Hrun & Hi & Hp & Hc).
  exists m'. rewrite Hm. split; [done|]. simpl in *.
  rewrite length_app in Hp, Hc. simpl in *. repeat split; lia.
Qed.

(** C1 on lib/path/script.js: every caller that enters [loadedScript]
    before a module is loaded starts a dynamic import of its own. With [n]
    concurrent callers on a fresh instance the import runs [n] times and
    [n] loads are in flight together. *)
Theorem libpath_every_caller_imports (href : string) (n : nat) :
  (fun m => (imports m, length (pending m), length (callers m)))
    <$> LibPathScript.run (replicate n Call) (fresh href)
  = Some (n, n, n).
Proof.
  destruct (calls_import_each n (fresh href) eq_refl) as (m' & -> & Hi & Hp & Hc).
  simpl in *. repeat f_equal; lia.
Qed.

Example libpath_two_callers :
  (fun m => (imports m, pending m, callers m))
    <$> LibPathScript.run [Call; Call] (fresh "lib/mod.js")
  = Some (2, [0; 1], [AwaitLoading 0; AwaitLoading 1]).
Proof. reflexivity. Qed.

End LibPathFacts.

(** ** The methods of load/helpers.js and load/script.js *)

Module ScriptFacts.
Import Loader Async Script Invariant.

Section Facts.

Variable world : Type.
Variable call_fn : func -> list value -> world -> result value * world.
Variable construct_fn : func -> list value -> world -> result value * world.
Variable import_ : nat -> outcome.

Local Abbreviation exec := (Script.exec world call_fn construct_fn import_).

(** Running [let* x := pr in k x] is running [pr] and then, on success,
    the rest. *)
Lemma exec_bind {A B : Type} (pr : prog A) (k : A -> prog B) (m : machine) (w : world) :
  exec (bind pr k) m w =
  match exec pr m w with
  | Some (Ok a, m', w') => exec (k a) m' w'
  | Some (Err e, m', w') => Some (Err e, m', w')
  | None => None
  end.
Proof.
  revert m w. induction pr as [a|e|h IH|f args h IH|f args h IH]; intros m w; simpl.
  - done.
  - done.
  - destruct (await_loadedScript import_ m) as [[[script|e] m']|]; [apply IH|done..].
  - destruct (call_fn f args w) as [[v|e] w']; [apply IH|done].
  - destruct (construct_fn f args w) as [[v|e] w']; [apply IH|done].
Qed.

(** The walk touches neither the loader nor the module's world. *)
Lemma exec_walk (path name : string) (segs : list string) (obj : value)
  (m : machine) (w : world) :
  exists r, exec (walk path name segs obj) m w = Some (r, m, w).
Proof.
  revert obj. induction segs as [|seg segs IH]; intros obj; simpl; [by eauto|].
  destruct (truthy (get_prop obj seg)); simpl; [apply IH|by eauto].
Qed.

Lemma walk_app (path name : string) (pre rest : list string) (obj : value) :
  walk path name (pre ++ rest) obj =
  bind (walk path name pre obj) (walk path name rest).
Proof.
  revert obj. induction pre as [|seg pre IH]; intros obj; simpl; [done|].
  destruct (truthy (get_prop obj seg)); simpl; [apply IH|done].
Qed.

(** A walk over [pre ++ rest] is the walk over [pre] followed, from the
    value it reaches, by the walk over [rest]. *)
Lemma exec_nested_app (path name : string) (pre rest : list string)
  (m : machine) (w : world) :
  exec (getNestedObjectProperty path name (pre ++ rest)) m w =
  match exec (getNestedObjectProperty path name pre) m w with
  | Some (Ok cur, m', w') => exec (walk path name rest cur) m' w'
  | Some (Err e, m', w') => Some (Err e, m', w')
  | None => None
  end.
Proof.
  unfold getNestedObjectProperty. rewrite !exec_bind.
  destruct (exec (getObject path name) m w) as [[[[obj|e] m1] w1]|]; [|done..].
  rewrite walk_app. apply exec_bind.
Qed.

(** *** A loaded instance answers without suspending *)

Lemma await_loaded (m : machine) :
  truthy (p_loadedScript m) = true ->
  await_loadedScript import_ m = Some (Ok (p_loadedScript m), return_loaded m).
Proof.
  intros Ht. unfold await_loadedScript, LoadScript.loadedScript. rewrite Ht.
  assert (callers (return_loaded m) !! length (callers m)
          = Some (Returned (p_loadedScript m))) as ->
    by (simpl; by apply list_lookup_middle).
  done.
Qed.

Lemma exec_getObject_loaded (path name : string) (m : machine) (w : world) :
  truthy (p_loadedScript m) = true ->
  exec (getObject path name) m w =
  if String.eqb name "" then Some (Err OBJECT_NOT_DEFINED_ERROR, m, w)
  else Some (getObject_found path name (p_loadedScript m), return_loaded m, w).
Proof.
  intros Ht. unfold getObject, getObject_found.
  destruct (String.eqb name ""); [done|]. simpl. rewrite (await_loaded _ Ht).
  by destruct (truthy (get_prop_opt (p_loadedScript m) name)).
Qed.

(** C7: on an instance whose module is loaded, two successive calls of
    [getObject] with the same name settle to the same result, neither
    starts an import, and the cached module stays the same, also through
    every later schedule of events. *)
Theorem getObject_is_idempotent_once_loaded
  (path name : string) (m : machine) (w : world) :
  reachable m -> truthy (p_loadedScript m) = true ->
  (exists r m1 m2,
     exec (getObject path name) m w = Some (r, m1, w) /\
     exec (getObject path name) m1 w = Some (r, m2, w) /\
     imports m1 = imports m /\ imports m2 = imports m /\
     p_loadedScript m1 = p_loadedScript m /\ p_loadedScript m2 = p_loadedScript m /\
     (String.eqb name "" = false ->
      truthy (get_prop (p_loadedScript m) name) = true ->
      r = Ok (get_prop (p_loadedScript m) name))) /\
  (forall evs m',
     LoadScript.run evs m = Some m' ->
     p_loadedScript m' = p_loadedScript m /\ imports m' = imports m).
Proof.
  intros Hreach Ht. split.
  - rewrite (exec_getObject_loaded path name m w Ht).
    destruct (String.eqb name "") eqn:Hname.
    + exists (Err OBJECT_NOT_DEFINED_ERROR), m, m.
      rewrite (exec_getObject_loaded path name m w Ht), Hname. done.
    + exists (getObject_found path name (p_loadedScript m)),
             (return_loaded m), (return_loaded (return_loaded m)).
      rewrite (exec_getObject_loaded path name (return_loaded m) w Ht), Hname.
      repeat (split; [done|]).
      intros _ Hfound. unfold getObject_found.
      assert (get_prop_opt (p_loadedScript m) name = get_prop (p_loadedScript m) name)
        as -> by (by destruct (p_loadedScript m)).
      by rewrite Hfound.
  - intros evs m' Hrun.
    eapply LoaderFacts.loaded_is_terminal; [by apply LoaderFacts.reachable_inv|done..].
Qed.

(** C10: with no path segment the nested walk is [getObject]: the same
    result (value or error), the same state of the loader and the same
    world, from every state. *)
Theorem nested_walk_of_no_segment_is_getObject
  (path name : string) (m : machine) (w : world) :
  exec (getNestedObjectProperty path name []) m w = exec (getObject path name) m w.
Proof.
  unfold getNestedObjectProperty. rewrite exec_bind.
  by destruct (exec (getObject path name) m w) as [[[[obj|e] m1] w1]|].
Qed.

(** *** The nested walk *)

Lemma exec_walk_falsy (path name seg : string) (rest : list string) (cur : value)
  (m : machine) (w : world) :
  truthy (get_prop cur seg) = false ->
  exec (walk path name (seg :: rest) cur) m w =
  Some (Err (Error (PROPERTY_NOT_FOUND_ERROR +:+ ": " +:+ path +:+ ", "
                    +:+ name +:+ "." +:+ seg)), m, w).
Proof. intros Ht. simpl. by rewrite Ht. Qed.

Lemma exec_walk_truthy (path name seg : string) (cur : value)
  (m : machine) (w : world) :
  truthy (get_prop cur seg) = true ->
  exec (walk path name [seg] cur) m w = Some (Ok (get_prop cur seg), m, w).
Proof. intros Ht. simpl. by rewrite Ht. Qed.

(** C4, as the code has it: the walk goes through the segments in order
    and stops at the first one whose value on the current object is falsy
    (absent, or present and falsy); whatever segments follow, the error is
    the same, and its message names the member and that one segment,
    [objectName.propertyName], not the path walked so far. A segment with a
    truthy value is stepped into, and its value is the result when it is
    the last one. *)
Theorem nested_walk_stops_at_first_falsy_segment
  (path name seg : string) (pre : list string) (cur : value)
  (m m' : machine) (w w' : world) :
  exec (getNestedObjectProperty path name pre) m w = Some (Ok cur, m', w') ->
  (truthy (get_prop cur seg) = false ->
   forall rest,
     exec (getNestedObjectProperty path name (pre ++ seg :: rest)) m w =
     Some (Err (Error (PROPERTY_NOT_FOUND_ERROR +:+ ": " +:+ path +:+ ", "
                       +:+ name +:+ "." +:+ seg)), m', w')) /\
  (truthy (get_prop cur seg) = true ->
   exec (getNestedObjectProperty path name (pre ++ [seg])) m w =
   Some (Ok (get_prop cur seg), m', w')).
Proof.
  intros Hpre. split.
  - intros Ht rest. rewrite exec_nested_app, Hpre. by apply exec_walk_falsy.
  - intros Ht. rewrite exec_nested_app, Hpre. by apply exec_walk_truthy.
Qed.

(** C9: a property that the current object has, bound to a falsy value, is
    reported as not found, by [getObjectProperty] and at any depth of the
    nested walk. *)
Theorem falsy_property_is_reported_as_not_found
  (path name seg : string) (cur : value) (m m' : machine) (w w' : world) :
  has_prop cur seg = true -> falsy (get_prop cur seg) = true ->
  (exec (getObject path name) m w = Some (Ok cur, m', w') ->
   exec (getObjectProperty path name seg) m w =
   Some (Err (Error (PROPERTY_NOT_FOUND_ERROR +:+ ": " +:+ path +:+ ", "
                     +:+ name +:+ "." +:+ seg)), m', w')) /\
  (forall pre rest,
     exec (getNestedObjectProperty path name pre) m w = Some (Ok cur, m', w') ->
     exec (getNestedObjectProperty path name (pre ++ seg :: rest)) m w =
     Some (Err (Error (PROPERTY_NOT_FOUND_ERROR +:+ ": " +:+ path +:+ ", "
                       +:+ name +:+ "." +:+ seg)), m', w')).
Proof.
  intros _ Hf. apply negb_true_iff in Hf. split.
  - intros Hobj. unfold getObjectProperty. rewrite exec_bind, Hobj. simpl.
    by rewrite Hf.
  - intros pre rest Hpre. rewrite exec_nested_app, Hpre. by apply exec_walk_falsy.
Qed.

(** *** Invocation *)

Lemma get_prop_opt_truthy (v : value) (name : string) :
  truthy v = true -> get_prop_opt v name = get_prop v name.
Proof. by destruct v. Qed.

Lemma exec_getObject_member (path name : string) (member : value)
  (m : machine) (w : world) :
  truthy (p_loadedScript m) = true -> String.eqb name "" = false ->
  get_prop (p_loadedScript m) name = member -> truthy member = true ->
  exec (getObject path name) m w = Some (Ok member, return_loaded m, w).
Proof.
  intros Ht Hname Hget Hm. rewrite (exec_getObject_loaded _ _ _ _ Ht), Hname.
  unfold getObject_found. by rewrite (get_prop_opt_truthy _ _ Ht), Hget, Hm.
Qed.

Lemma exec_getFunction_member (path name : string) (f : func)
  (m : machine) (w : world) :
  truthy (p_loadedScript m) = true -> String.eqb name "" = false ->
  get_prop (p_loadedScript m) name = VFun f ->
  exec (getFunction path name) m w = Some (Ok (VFun f), return_loaded m, w).
Proof.
  intros Ht Hname Hget. unfold getFunction.
  by rewrite exec_bind, (exec_getObject_member _ _ (VFun f)).
Qed.

Lemma exec_getClass_member (path name : string) (f : func)
  (m : machine) (w : world) :
  truthy (p_loadedScript m) = true -> String.eqb name "" = false ->
  get_prop (p_loadedScript m) name = VFun f -> isClass (VFun f) = true ->
  exec (getClass path name) m w = Some (Ok (VFun f), return_loaded m, w).
Proof.
  intros Ht Hname Hget Hclass. unfold getClass.
  rewrite exec_bind, (exec_getObject_member _ _ (VFun f)) by done.
  by rewrite Hclass.
Qed.

Lemma exec_getObjectProperty_method (path name method : string) (object : value)
  (f : func) (m : machine) (w : world) :
  truthy (p_loadedScript m) = true -> String.eqb name "" = false ->
  get_prop (p_loadedScript m) name = object -> truthy object = true ->
  get_prop object method = VFun f ->
  exec (getObjectProperty path name method) m w = Some (Ok (VFun f), return_loaded m, w).
Proof.
  intros Ht Hname Hget Hobj Hmethod. unfold getObjectProperty.
  rewrite exec_bind, (exec_getObject_member _ _ object) by done.
  by rewrite Hmethod.
Qed.

(** [fn.length !== parameters.length] compares the two counts. *)
Lemma length_check (f : func) (parameters : list value) :
  strict_equal (get_prop (VFun f) "length") (array_length parameters)
  = (fn_length f =? length parameters).
Proof.
  simpl. destruct (Nat.eqb_spec (fn_length f) (length parameters)) as [->|Hne].
  - apply Z.eqb_refl.
  - apply Z.eqb_neq. lia.
Qed.

Lemma exec_call_value (f : func) (args : list value) (m : machine) (w : world) :
  exec (call_value (VFun f) args) m w = outcome_of m (call_fn f args w).
Proof. simpl. by destruct (call_fn f args w) as [[v|e] w']. Qed.

Lemma exec_new_value (f : func) (args : list value) (m : machine) (w : world) :
  exec (new_value (VFun f) args) m w = outcome_of m (construct_fn f args w).
Proof. simpl. by destruct (construct_fn f args w) as [[v|e] w']. Qed.

(** X2: the safe forms compare the declared parameter count with the number
    of supplied parameters before anything of the module runs: on a
    mismatch the method fails and the world is the one it started in,
    whatever the target would have done. On equal counts a function and a
    method are called with the parameters; [exec] of a call is the
    outcome [call_fn] gives, its result or its failure as they are. *)
Theorem arity_check_precedes_the_call
  (path name : string) (parameters : list value) (f : func) (m : machine) (w : world) :
  truthy (p_loadedScript m) = true -> String.eqb name "" = false ->
  (get_prop (p_loadedScript m) name = VFun f ->
   exec (safeCallFunction path name parameters) m w =
   if fn_length f =? length parameters
   then outcome_of (return_loaded m) (call_fn f parameters w)
   else Some (Err (Error (MISMATCHED_NUMBER_OF_PARAMETERS_ERROR +:+ ": " +:+ path
                          +:+ ", " +:+ name)), return_loaded m, w)) /\
  (get_prop (p_loadedScript m) name = VFun f -> isClass (VFun f) = true ->
   fn_length f <> length parameters ->
   exec (safeCallNew path name parameters) m w =
   Some (Err (Error (MISMATCHED_NUMBER_OF_PARAMETERS_ERROR +:+ ": " +:+ path
                     +:+ ", " +:+ name)), return_loaded m, w)) /\
  (forall method object,
     get_prop (p_loadedScript m) name = object -> truthy object = true ->
     get_prop object method = VFun f ->
     exec (safeCallObjectMethod path name method parameters) m w =
     if fn_length f =? length parameters
     then outcome_of (return_loaded m) (call_fn f parameters w)
     else Some (Err (Error (MISMATCHED_NUMBER_OF_PARAMETERS_ERROR +:+ ": " +:+ path
                            +:+ ", " +:+ name +:+ "." +:+ method)), return_loaded m, w)).
Proof.
  intros Ht Hname. split; [|split].
  - intros Hget. unfold safeCallFunction.
    rewrite exec_bind, (exec_getFunction_member _ _ f) by done.
    rewrite length_check.
    destruct (fn_length f =? length parameters); [apply exec_call_value|done].
  - intros Hget Hclass Hne. unfold safeCallNew.
    rewrite exec_bind, (exec_getClass_member _ _ f) by done.
    rewrite length_check. by apply Nat.eqb_neq in Hne as ->.
  - intros method object Hget Hobj Hmethod. unfold safeCallObjectMethod.
    rewrite exec_bind, (exec_getObjectProperty_method _ _ _ object f) by done.
    change (isFunction (VFun f)) with true. rewrite length_check.
    destruct (fn_length f =? length parameters); [apply exec_call_value|done].
Qed.

(** X3: [callFunction] and [callObjectMethod] hand the parameters to the
    callee as they are and settle as the callee does, with its result or
    with its failure. *)
Theorem calls_hand_over_the_parameters
  (path name : string) (parameters : list value) (f : func) (m : machine) (w : world) :
  truthy (p_loadedScript m) = true -> String.eqb name "" = false ->
  (get_prop (p_loadedScript m) name = VFun f ->
   exec (callFunction path name parameters) m w =
   outcome_of (return_loaded m) (call_fn f parameters w)) /\
  (forall method object,
     get_prop (p_loadedScript m) name = object -> truthy object = true ->
     get_prop object method = VFun f ->
     exec (callObjectMethod path name method parameters) m w =
     outcome_of (return_loaded m) (call_fn f parameters w) /\
     exec (callObjectMethod_direct path name method parameters) m w =
     outcome_of (return_loaded m) (call_fn f parameters w)).
Proof.
  intros Ht Hname. split.
  - intros Hget. unfold callFunction.
    rewrite exec_bind, (exec_getFunction_member _ _ f) by done.
    apply exec_call_value.
  - intros method object Hget Hobj Hmethod. split.
    + unfold callObjectMethod.
      rewrite exec_bind, (exec_getObjectProperty_method _ _ _ object f) by done.
      change (isFunction (VFun f)) with true. apply exec_call_value.
    + unfold callObjectMethod_direct.
      rewrite exec_bind, (exec_getObject_member _ _ object) by done.
      rewrite Hmethod. change (isFunction (VFun f)) with true. apply exec_call_value.
Qed.

(** [callNew] constructs the class with one argument, the array of the
    parameters. *)
Lemma exec_callNew_class
  (path name : string) (parameters : list value) (f : func) (m : machine) (w : world) :
  truthy (p_loadedScript m) = true -> String.eqb name "" = false ->
  get_prop (p_loadedScript m) name = VFun f -> isClass (VFun f) = true ->
  exec (callNew path name parameters) m w =
  outcome_of (return_loaded m) (construct_fn f [VArr parameters] w).
Proof.
  intros Ht Hname Hget Hclass. unfold callNew.
  rewrite exec_bind, (exec_getClass_member _ _ f) by done.
  apply exec_new_value.
Qed.

(** So does [safeCallNew] once the counts have been found equal. *)
Lemma exec_safeCallNew_class
  (path name : string) (parameters : list value) (f : func) (m : machine) (w : world) :
  truthy (p_loadedScript m) = true -> String.eqb name "" = false ->
  get_prop (p_loadedScript m) name = VFun f -> isClass (VFun f) = true ->
  fn_length f = length parameters ->
  exec (safeCallNew path name parameters) m w =
  outcome_of (return_loaded m) (construct_fn f [VArr parameters] w).
Proof.
  intros Ht Hname Hget Hclass Hlen. unfold safeCallNew.
  rewrite exec_bind, (exec_getClass_member _ _ f) by done.
  rewrite length_check. apply Nat.eqb_eq in Hlen as ->. apply exec_new_value.
Qed.

End Facts.

(** *** The scenario module *)

Local Abbreviation run_example :=
  (Script.exec Examples.world Examples.call_fn Examples.construct_fn Examples.import_).

Lemma getObject_is_idempotent_once_loaded_witness :
  exists m1 m2,
    run_example (getObject Examples.href "add") Examples.loaded []
      = Some (Ok (VFun Examples.add), m1, []) /\
    run_example (getObject Examples.href "add") m1 []
      = Some (Ok (VFun Examples.add), m2, []) /\
    imports m2 = 1 /\ p_loadedScript m2 = p_loadedScript Examples.loaded.
Proof.
  destruct (getObject_is_idempotent_once_loaded
              Examples.world Examples.call_fn Examples.construct_fn Examples.import_
              Examples.href "add" Examples.loaded []
              LoaderFacts.loaded_reachable eq_refl)
    as [(r & m1 & m2 & H1 & H2 & _ & Hi & _ & Hl & Hr) _].
  rewrite (Hr eq_refl eq_refl) in H1, H2.
  exists m1, m2. split; [exact H1|]. split; [exact H2|]. split; [exact Hi|exact Hl].
Defined.

Lemma nested_walk_stops_at_first_falsy_segment_witness :
  run_example (getNestedObjectProperty Examples.href "a" (["b"] ++ "c" :: ["d"; "e"]))
              (fresh Examples.href) []
    = Some (Err (Error "Property not found: file:///mathutils.js, a.c"),
            Examples.loaded, []) /\
  run_example (getNestedObjectProperty Examples.href "a" ([] ++ ["b"]))
              (fresh Examples.href) []
    = Some (Ok (VObj 12 []), Examples.loaded, []).
Proof.
  split.
  - apply (proj1 (nested_walk_stops_at_first_falsy_segment
                    Examples.world Examples.call_fn Examples.construct_fn Examples.import_
                    Examples.href "a" "c" ["b"] (VObj 12 [])
                    (fresh Examples.href) Examples.loaded [] [] eq_refl) eq_refl).
  - apply (proj2 (nested_walk_stops_at_first_falsy_segment
                    Examples.world Examples.call_fn Examples.construct_fn Examples.import_
                    Examples.href "a" "b" [] (VObj 11 [("b", VObj 12 [])])
                    (fresh Examples.href) Examples.loaded [] [] eq_refl) eq_refl).
Defined.

(** C4, as stated, fails. Resolving [a], [b], [c] where [a.b] exists and
    [a.b.c] does not: the message names [a.c], and [a.b.c] occurs nowhere
    in it. And resolving [config], [limits], [max], where every segment
    exists, does not return the final value [0] but fails. *)
Lemma nested_walk_error_does_not_name_the_path :
  (fun out => match out with
              | (Err (Error message), _, _) => Some (message, Examples.occurs "a.b.c" message)
              | _ => None
              end)
    <$> run_example (getNestedObjectProperty Examples.href "a" ["b"; "c"])
                    (fresh Examples.href) []
  = Some (Some ("Property not found: file:///mathutils.js, a.c", false)) /\
  has_prop (VObj 14 [("max", VNum 0)]) "max" = true /\
  fst <$> run_example (getNestedObjectProperty Examples.href "config" ["limits"; "max"])
                      (fresh Examples.href) []
  = Some (Err (Error "Property not found: file:///mathutils.js, config.max"),
          Examples.loaded).
Proof. repeat split. Qed.

Lemma falsy_property_is_reported_as_not_found_witness :
  (* 0, at depth one and at depth two *)
  run_example (getObjectProperty Examples.href "config" "retries") (fresh Examples.href) []
    = Some (Err (Error "Property not found: file:///mathutils.js, config.retries"),
            Examples.loaded, []) /\
  run_example (getNestedObjectProperty Examples.href "config" (["limits"] ++ "max" :: []))
              (fresh Examples.href) []
    = Some (Err (Error "Property not found: file:///mathutils.js, config.max"),
            Examples.loaded, []) /\
  (* the empty string, false and null *)
  run_example (getObjectProperty Examples.href "config" "label") (fresh Examples.href) []
    = Some (Err (Error "Property not found: file:///mathutils.js, config.label"),
            Examples.loaded, []) /\
  run_example (getObjectProperty Examples.href "config" "debug") (fresh Examples.href) []
    = Some (Err (Error "Property not found: file:///mathutils.js, config.debug"),
            Examples.loaded, []) /\
  run_example (getObjectProperty Examples.href "config" "parent") (fresh Examples.href) []
    = Some (Err (Error "Property not found: file:///mathutils.js, config.parent"),
            Examples.loaded, []).
Proof.
  pose (config := default VUndefined (assoc "config" Examples.mathutils_exports)).
  pose (thm := falsy_property_is_reported_as_not_found
                 Examples.world Examples.call_fn Examples.construct_fn Examples.import_
                 Examples.href "config").
  split; [|split; [|split; [|split]]].
  - apply (proj1 (thm "retries" config (fresh Examples.href) Examples.loaded [] []
                      eq_refl eq_refl) eq_refl).
  - apply (proj2 (falsy_property_is_reported_as_not_found
                    Examples.world Examples.call_fn Examples.construct_fn Examples.import_
                    Examples.href "config" "max" (VObj 14 [("max", VNum 0)])
                    (fresh Examples.href) Examples.loaded [] [] eq_refl eq_refl)
                 ["limits"] [] eq_refl).
  - apply (proj1 (thm "label" config (fresh Examples.href) Examples.loaded [] []
                      eq_refl eq_refl) eq_refl).
  - apply (proj1 (thm "debug" config (fresh Examples.href) Examples.loaded [] []
                      eq_refl eq_refl) eq_refl).
  - apply (proj1 (thm "parent" config (fresh Examples.href) Examples.loaded [] []
                      eq_refl eq_refl) eq_refl).
Defined.

(** C3: [callNew] runs [new Class(parameters)]. Whatever the class and
    the parameters, the constructor is invoked with one argument, the array
    of the parameters, not with the parameters themselves. On the scenario
    module [callNew("Vector", 7)] invokes the constructor once, with the
    array [[7]]: the field [x] of the instance is that array and not the
    number 7. *)
Theorem callNew_passes_the_parameters_as_one_array :
  (forall world call_fn construct_fn import_ path name parameters f m (w : world),
     truthy (p_loadedScript m) = true -> String.eqb name "" = false ->
     get_prop (p_loadedScript m) name = VFun f -> isClass (VFun f) = true ->
     Script.exec world call_fn construct_fn import_ (callNew path name parameters) m w =
     outcome_of (return_loaded m) (construct_fn f [VArr parameters] w)) /\
  (fun out => match out with
              | (Ok instance, _, w) =>
                  Some (get_prop instance "x", strict_equal (get_prop instance "x") (VNum 7), w)
              | _ => None
              end)
    <$> run_example (callNew Examples.href "Vector" [VNum 7]) (fresh Examples.href) []
  = Some (Some (VArr [VNum 7], false, [(fn_ref Examples.Vector, [VArr [VNum 7]])])).
Proof.
  split.
  - intros world call_fn construct_fn import_ path name parameters f m w.
    apply exec_callNew_class.
  - reflexivity.
Qed.

(** C5: [safeCallNew] compares [Class.length] with the number of
    parameters and, when they are equal, runs [new Class(parameters)]: the
    constructor is invoked with one argument, the array of the parameters,
    whatever count the check has just confirmed. On the scenario module
    [safeCallNew("Pair", 1, 2)] passes the check (two declared, two
    supplied) and invokes the constructor with the one array [[1, 2]], so
    [a] is the array and [b] is [undefined]. *)
Theorem safeCallNew_checks_the_count_then_passes_one_array :
  (forall world call_fn construct_fn import_ path name parameters f m (w : world),
     truthy (p_loadedScript m) = true -> String.eqb name "" = false ->
     get_prop (p_loadedScript m) name = VFun f -> isClass (VFun f) = true ->
     fn_length f = length parameters ->
     Script.exec world call_fn construct_fn import_ (safeCallNew path name parameters) m w =
     outcome_of (return_loaded m) (construct_fn f [VArr parameters] w)) /\
  (fun out => match out with
              | (Ok instance, _, w) =>
                  Some (get_prop instance "a", get_prop instance "b", w)
              | _ => None
              end)
    <$> run_example (safeCallNew Examples.href "Pair" [VNum 1; VNum 2])
                    (fresh Examples.href) []
  = Some (Some (VArr [VNum 1; VNum 2], VUndefined,
                [(fn_ref Examples.Pair, [VArr [VNum 1; VNum 2]])])).
Proof.
  split.
  - intros world call_fn construct_fn import_ path name parameters f m w.
    apply exec_safeCallNew_class.
  - reflexivity.
Qed.

(** The scenario of the module: a sum, a missing member, a function
    where a class is asked for. *)
Example scenario :
  fst <$> run_example (callFunction Examples.href "add" [VNum 2; VNum 3])
                      (fresh Examples.href) []
    = Some (Ok (VNum 5), Examples.loaded) /\
  fst <$> run_example (callFunction Examples.href "missing" []) (fresh Examples.href) []
    = Some (Err (Error "Object not found: file:///mathutils.js, missing"), Examples.loaded) /\
  fst <$> run_example (callNew Examples.href "add" []) (fresh Examples.href) []
    = Some (Err (Error "Object is not a class: file:///mathutils.js, add"), Examples.loaded) /\
  fst <$> run_example (callFunction Examples.href "" []) (fresh Examples.href) []
    = Some (Err OBJECT_NOT_DEFINED_ERROR, fresh Examples.href).
Proof. repeat split. Qed.

Lemma arity_check_precedes_the_call_witness :
  (* [add] declares two parameters *)
  run_example (safeCallFunction Examples.href "add" [VNum 1]) Examples.loaded []
    = Some (Err (Error "Mismatched number of parameters: file:///mathutils.js, add"),
            return_loaded Examples.loaded, []) /\
  run_example (safeCallFunction Examples.href "add" [VNum 2; VNum 3]) Examples.loaded []
    = Some (Ok (VNum 5), return_loaded Examples.loaded,
            [(fn_ref Examples.add, [VNum 2; VNum 3])]) /\
  run_example (safeCallNew Examples.href "Pair" [VNum 1]) Examples.loaded []
    = Some (Err (Error "Mismatched number of parameters: file:///mathutils.js, Pair"),
            return_loaded Examples.loaded, []) /\
  run_example (safeCallObjectMethod Examples.href "text" "greet" []) Examples.loaded []
    = Some (Err (Error "Mismatched number of parameters: file:///mathutils.js, text.greet"),
            return_loaded Examples.loaded, []).
Proof.
  pose (thm := arity_check_precedes_the_call
                 Examples.world Examples.call_fn Examples.construct_fn Examples.import_
                 Examples.href).
  split; [|split; [|split]].
  - apply (proj1 (thm "add" [VNum 1] Examples.add Examples.loaded [] eq_refl eq_refl)
                 eq_refl).
  - apply (proj1 (thm "add" [VNum 2; VNum 3] Examples.add Examples.loaded []
                      eq_refl eq_refl) eq_refl).
  - apply (proj1 (proj2 (thm "Pair" [VNum 1] Examples.Pair Examples.loaded []
                             eq_refl eq_refl)) eq_refl eq_refl).
    simpl. lia.
  - apply (proj2 (proj2 (thm "text" [] Examples.greet Examples.loaded []
                             eq_refl eq_refl))
                 "greet" (VObj 15 [("greet", VFun Examples.greet)]) eq_refl eq_refl eq_refl).
Defined.

Lemma calls_hand_over_the_parameters_witness :
  run_example (callFunction Examples.href "add" [VNum 2; VNum 3]) Examples.loaded []
    = Some (Ok (VNum 5), return_loaded Examples.loaded,
            [(fn_ref Examples.add, [VNum 2; VNum 3])]) /\
  run_example (callObjectMethod Examples.href "text" "greet" [VStr "hello"])
              Examples.loaded []
    = Some (Ok (VStr "hello"), return_loaded Examples.loaded,
            [(fn_ref Examples.greet, [VStr "hello"])]).
Proof.
  pose (thm := calls_hand_over_the_parameters
                 Examples.world Examples.call_fn Examples.construct_fn Examples.import_
                 Examples.href).
  split.
  - apply (proj1 (thm "add" [VNum 2; VNum 3] Examples.add Examples.loaded []
                      eq_refl eq_refl) eq_refl).
  - apply (proj1 (proj2 (thm "text" [VStr "hello"] Examples.greet Examples.loaded []
                             eq_refl eq_refl)
                        "greet" (VObj 15 [("greet", VFun Examples.greet)])
                        eq_refl eq_refl eq_refl)).
Defined.

End ScriptFacts.

(** ** load/helpers.js: the classifier *)

Module ClassifierFacts.

Lemma class_regexp_needs_white_space :
  class_regexp_test "class Pair {}" = true /\
  class_regexp_test "class{constructor(x){this.x=x}}" = false /\
  class_regexp_test "classify" = false /\
  class_regexp_test "function f() {}" = false.
Proof. repeat split. Qed.

Lemma isClass_implies_isFunction (v : value) : isClass v = true -> isFunction v = true.
Proof. unfold isClass, isFunction. by intros [? _]%andb_true_iff. Qed.

(** C8: whatever [isClass] accepts, [isFunction] accepts; and an ordinary
    function is accepted by [isFunction] and not by [isClass]. *)
Theorem isClass_is_a_strict_part_of_isFunction :
  (forall v, isClass v = true -> isFunction v = true) /\
  (exists v, isFunction v = true /\ isClass v = false).
Proof.
  split.
  - intros v. unfold isClass, isFunction. by intros [? _]%andb_true_iff.
  - by exists (VFun Examples.add).
Qed.

Lemma isClass_is_a_strict_part_of_isFunction_witness :
  isClass (VFun Examples.Vector) = true /\ isFunction (VFun Examples.Vector) = true.
Proof.
  split; [reflexivity|].
  apply (proj1 isClass_is_a_strict_part_of_isFunction (VFun Examples.Vector)).
  reflexivity.
Defined.

End ClassifierFacts.

(** ** Edge behaviour of the loader and of the methods *)

Module LoaderEdgeFacts.
Import Loader Invariant LoaderFacts.

(** X4: a caller stranded by a failed load is released by the next load
    that succeeds. The 'load' listeners stay registered, so when a later
    import is fulfilled every caller still waiting for the event, whichever
    attempt it entered under, becomes ready and returns the module of that
    import. *)
Theorem waiters_are_released_by_the_next_success
  (m m1 : machine) (p ref : nat) (exports : list (string * value)) (c : nat) :
  reachable m ->
  callers m !! c = Some AwaitLoadEvent ->
  LoadScript.step (Settle p (Fulfilled ref exports)) m = Some m1 ->
  callers m1 !! c = Some ReadyReturn /\
  exists m2, LoadScript.step (Resume c) m1 = Some m2 /\
             callers m2 !! c = Some (Returned (VObj ref exports)).
Proof.
  intros Hinv%reachable_inv Hc [_ ->]%step_settle_inv.
  destruct (inv_callers _ Hinv _ _ Hc) as [Hin _].
  assert (callers (settle p (Fulfilled ref exports) m) !! c = Some ReadyReturn) as Hr.
  { simpl. rewrite settle_chain_lookup, emit_load_lookup, decide_True by done.
    by rewrite Hc. }
  split; [done|].
  unfold LoadScript.step, Loader.step, resume. rewrite Hr.
  eexists. split; [done|]. unfold set_caller, callers at 1.
  apply list_lookup_insert_eq. by eapply lookup_lt_Some.
Qed.

Lemma waiters_are_released_by_the_next_success_witness :
  exists m m1 m2,
    LoadScript.run [Call; Call; Settle 0 (Rejected Examples.boom); Resume 0; Call]
                   (fresh Examples.href) = Some m /\
    callers m !! 1 = Some AwaitLoadEvent /\
    LoadScript.step (Settle 1 Examples.mathutils) m = Some m1 /\
    LoadScript.step (Resume 1) m1 = Some m2 /\
    callers m2 !! 1 = Some (Returned (VObj 10 Examples.mathutils_exports)).
Proof.
  eexists _, _. 
  assert (reachable
            (default (fresh "")
               (LoadScript.run [Call; Call; Settle 0 (Rejected Examples.boom); Resume 0; Call]
                               (fresh Examples.href)))) as Hreach.
  { exists Examples.href,
      [Call; Call; Settle 0 (Rejected Examples.boom); Resume 0; Call]. reflexivity. }
  destruct (waiters_are_released_by_the_next_success _ _ 1 10 Examples.mathutils_exports 1
              Hreach eq_refl eq_refl) as (_ & m2 & Hres & Hret).
  exists m2. split; [reflexivity|]. split; [reflexivity|]. split; [reflexivity|].
  split; [exact Hres|exact Hret].
Defined.

End LoaderEdgeFacts.

Module ScriptEdgeFacts.
Import Loader Async Script Invariant LoaderFacts ScriptFacts.

Section Facts.

Variable world : Type.
Variable call_fn : func -> list value -> world -> result value * world.
Variable construct_fn : func -> list value -> world -> result value * world.
Variable import_ : nat -> outcome.

Local Abbreviation exec := (Script.exec world call_fn construct_fn import_).

(** *** A lone caller on an idle instance *)

Lemma idle_pending (m : machine) :
  inv m -> p_loadingScript m = None -> pending m = [].
Proof. intros [[?|(p & _ & ? & _)] _] Hl; [done|congruence]. Qed.

Lemma settle_and_resume_eq (p c : nat) (m m2 m3 : machine)
  (r : option (result value * machine)) :
  LoadScript.step (Settle p (import_ p)) m = Some m2 ->
  LoadScript.step (Resume c) m2 = Some m3 ->
  settled c m3 = r ->
  settle_and_resume import_ p c m = r.
Proof. unfold settle_and_resume. intros -> . simpl. intros ->. done. Qed.

Lemma resume_ready (c : nat) (m : machine) (st : status) :
  callers m !! c = Some st ->
  match st with
  | ReadyReturn =>
      LoadScript.step (Resume c) m = Some (set_caller c (Returned (p_loadedScript m)) m) /\
      settled c (set_caller c (Returned (p_loadedScript m)) m)
      = Some (Ok (p_loadedScript m), set_caller c (Returned (p_loadedScript m)) m)
  | ReadyThrow e =>
      LoadScript.step (Resume c) m = Some (set_caller c (Threw e) m) /\
      settled c (set_caller c (Threw e) m) = Some (Err e, set_caller c (Threw e) m)
  | _ => LoadScript.step (Resume c) m = None
  end.
Proof.
  intros Hc. unfold LoadScript.step, Loader.step, resume, settled. rewrite Hc.
  destruct st; try done; (split; [done|]);
    unfold set_caller, callers at 1;
    by rewrite list_lookup_insert_eq by (by eapply lookup_lt_Some).
Qed.

(** The caller starts import number [imports m], the import settles as the
    oracle says, and the caller is resumed. *)
Lemma await_idle (m : machine) :
  inv m -> truthy (p_loadedScript m) = false -> p_loadingScript m = None ->
  exists m',
    inv m' /\ imports m' = S (imports m) /\ pending m' = [] /\
    match import_ (imports m) with
    | Fulfilled ref exports =>
        await_loadedScript import_ m = Some (Ok (VObj ref exports), m') /\
        p_loadedScript m' = VObj ref exports
    | Rejected e =>
        await_loadedScript import_ m = Some (Err e, m') /\
        p_loadingScript m' = None /\ truthy (p_loadedScript m') = false
    end.
Proof.
  intros Hinv Ht Hl.
  pose proof (idle_pending _ Hinv Hl) as Hnil.
  assert (LoadScript.loadedScript m = start_import m) as Hm
    by (unfold LoadScript.loadedScript; by rewrite Ht, Hl).
  assert (inv (start_import m)) as Hinv1 by (rewrite <-Hm; by apply inv_loadedScript).
  set (p := imports m). set (c := length (callers m)).
  assert (callers (start_import m) !! c = Some (AwaitLoading p)) as Hc
    by (simpl; by apply list_lookup_middle).
  assert (p ∈ pending (start_import m)) as Hin
    by (simpl; rewrite Hnil; by left).
  assert (forall o,
            callers (settle p o (start_import m)) !! c
            = Some match o with Fulfilled _ _ => ReadyReturn | Rejected e => ReadyThrow e end)
    as Hs.
  { intros o. destruct o as [ref ex|e]; simpl callers;
      rewrite settle_chain_lookup, ?emit_load_lookup.
    - change (callers m ++ [AwaitLoading (imports m)]) with (callers (start_import m)).
      rewrite Hc. case_decide; simpl; by rewrite Nat.eqb_refl.
    - change (callers m ++ [AwaitLoading (imports m)]) with (callers (start_import m)).
      rewrite Hc. simpl. by rewrite Nat.eqb_refl. }
  assert (forall o, pending (settle p o (start_import m)) = []) as Hp.
  { intros o. destruct o; simpl; by rewrite Hnil, remove_pending_single. }
  assert (LoadScript.step (Settle p (import_ p)) (start_import m)
          = Some (settle p (import_ p) (start_import m))) as Hstep.
  { unfold LoadScript.step, Loader.step. by rewrite bool_decide_eq_true_2. }
  pose proof (inv_settle _ p (import_ p) Hinv1 Hin) as Hinv2.
  pose proof (resume_ready c _ _ (Hs (import_ p))) as Hres.
  assert (await_loadedScript import_ m
          = settle_and_resume import_ p c (start_import m)) as ->.
  { unfold await_loadedScript. rewrite Hm. fold c. by rewrite Hc. }
  specialize (Hp (import_ p)).
  destruct (import_ p) as [ref ex|e] eqn:Ho; destruct Hres as [Hres Hset].
  - eexists. split; [by eapply inv_step|]. split; [done|]. split; [exact Hp|].
    split; [|done]. by eapply settle_and_resume_eq; rewrite ?Ho.
  - eexists. split; [by eapply inv_step|]. split; [done|]. split; [exact Hp|].
    split; [|split; [done|exact Ht]]. by eapply settle_and_resume_eq; rewrite ?Ho.
Qed.

Lemma exec_getObject_idle (path name : string) (m : machine) (w : world) :
  inv m -> truthy (p_loadedScript m) = false -> p_loadingScript m = None ->
  String.eqb name "" = false ->
  exists m',
    inv m' /\ imports m' = S (imports m) /\
    match import_ (imports m) with
    | Fulfilled ref exports =>
        exec (getObject path name) m w
        = Some (getObject_found path name (VObj ref exports), m', w) /\
        p_loadedScript m' = VObj ref exports
    | Rejected e =>
        exec (getObject path name) m w = Some (Err e, m', w) /\
        p_loadingScript m' = None /\ truthy (p_loadedScript m') = false
    end.
Proof.
  intros Hinv Ht Hl Hname.
  destruct (await_idle m Hinv Ht Hl) as (m' & Hinv' & Hi & _ & Hawait).
  exists m'. split; [done|]. split; [done|].
  unfold getObject. rewrite Hname. simpl.
  destruct (import_ (imports m)) as [ref ex|e].
  - destruct Hawait as [-> Hloaded]. split; [|done]. unfold getObject_found.
    by destruct (truthy (get_prop_opt (VObj ref ex) name)).
  - destruct Hawait as (-> & ? & ?). done.
Qed.

(** X5: a method called on an instance that has loaded nothing and loads
    nothing settles as the dynamic import does. If the import is fulfilled
    the member is looked up in that module; if it is rejected the method
    fails with the rejection itself, not wrapped, the instance is left
    without a pending load, and the next call starts the next import and
    settles as that one does. Each call starts exactly one import. *)
Theorem getObject_settles_as_the_import_does
  (path name : string) (m : machine) (w : world) :
  reachable m -> truthy (p_loadedScript m) = false -> p_loadingScript m = None ->
  String.eqb name "" = false ->
  exists m1,
    imports m1 = S (imports m) /\
    match import_ (imports m) with
    | Fulfilled ref exports =>
        exec (getObject path name) m w
        = Some (getObject_found path name (VObj ref exports), m1, w) /\
        p_loadedScript m1 = VObj ref exports
    | Rejected e =>
        exec (getObject path name) m w = Some (Err e, m1, w) /\
        p_loadingScript m1 = None /\
        exists m2,
          imports m2 = S (S (imports m)) /\
          match import_ (S (imports m)) with
          | Fulfilled ref exports =>
              exec (getObject path name) m1 w
              = Some (getObject_found path name (VObj ref exports), m2, w) /\
              p_loadedScript m2 = VObj ref exports
          | Rejected e' =>
              exec (getObject path name) m1 w = Some (Err e', m2, w)
          end
    end.
Proof.
  intros Hinv%reachable_inv Ht Hl Hname.
  destruct (exec_getObject_idle path name m w Hinv Ht Hl Hname)
    as (m1 & Hinv1 & Hi1 & H1).
  exists m1. split; [done|].
  destruct (import_ (imports m)) as [ref ex|e]; [done|].
  destruct H1 as (Hexec & Hl1 & Ht1). split; [done|]. split; [done|].
  destruct (exec_getObject_idle path name m1 w Hinv1 Ht1 Hl1 Hname)
    as (m2 & _ & Hi2 & H2).
  exists m2. rewrite Hi1 in Hi2, H2. split; [done|].
  destruct (import_ (S (imports m))) as [ref ex|e']; [done|]. by destruct H2.
Qed.

(** *** The checks of the methods *)

Lemma getObject_keeps_world (path name : string) (m m' : machine) (w w' : world)
  (r : result value) :
  exec (getObject path name) m w = Some (r, m', w') -> w' = w.
Proof.
  unfold getObject. destruct (String.eqb name ""); simpl; [by intros [= _ _ <-]|].
  destruct (await_loadedScript import_ m) as [[[script|e] m1]|]; [|by intros [= _ _ <-]|done].
  destruct (truthy (get_prop_opt script name)); simpl; by intros [= _ _ <-].
Qed.

(** X6: what a member is decides what can be done with it, before
    anything of the module runs. A member that is not a function makes
    [getFunction], [callFunction] and [safeCallFunction] fail with the
    Object is not a function error; a member that is not a class (an
    ordinary function included) makes [getClass], [callNew] and
    [safeCallNew] fail with the Object is not a class error; and whatever
    [getClass] accepts, [getFunction] accepts. *)
Theorem member_kind_is_checked
  (path name : string) (member : value) (parameters : list value)
  (m m' : machine) (w w' : world) :
  exec (getObject path name) m w = Some (Ok member, m', w') ->
  (isFunction member = false ->
   let failure := Some (Err (Error (OBJECT_IS_NOT_A_FUNCTION_ERROR +:+ ": " +:+ path
                                    +:+ ", " +:+ name)), m', w) in
   exec (getFunction path name) m w = failure /\
   exec (callFunction path name parameters) m w = failure /\
   exec (safeCallFunction path name parameters) m w = failure) /\
  (isClass member = false ->
   let failure := Some (Err (Error (OBJECT_IS_NOT_A_CLASS_ERROR +:+ ": " +:+ path
                                    +:+ ", " +:+ name)), m', w) in
   exec (getClass path name) m w = failure /\
   exec (callNew path name parameters) m w = failure /\
   exec (safeCallNew path name parameters) m w = failure) /\
  (isClass member = true ->
   exec (getClass path name) m w = Some (Ok member, m', w) /\
   exec (getFunction path name) m w = Some (Ok member, m', w)).
Proof.
  intros Hobj. pose proof (getObject_keeps_world _ _ _ _ _ _ _ Hobj) as ->.
  split; [|split].
  - intros Hf.
    assert (exec (getFunction path name) m w
            = Some (Err (Error (OBJECT_IS_NOT_A_FUNCTION_ERROR +:+ ": " +:+ path
                                +:+ ", " +:+ name)), m', w)) as Hget
      by (unfold getFunction; by rewrite exec_bind, Hobj, Hf).
    unfold callFunction, safeCallFunction. by rewrite !exec_bind, Hget.
  - intros Hc.
    assert (exec (getClass path name) m w
            = Some (Err (Error (OBJECT_IS_NOT_A_CLASS_ERROR +:+ ": " +:+ path
                                +:+ ", " +:+ name)), m', w)) as Hget
      by (unfold getClass; by rewrite exec_bind, Hobj, Hc).
    unfold callNew, safeCallNew. by rewrite !exec_bind, Hget.
  - intros Hc. unfold getClass, getFunction. rewrite !exec_bind, Hobj, Hc.
    by rewrite (ClassifierFacts.isClass_implies_isFunction member Hc).
Qed.

(** X7: the [callObjectMethod] of load/helpers.js and that of
    load/script.js do the same whenever the object has a truthy value under
    the method's name, and whenever the object itself cannot be had. They
    part only on a falsy or absent property: load/helpers.js reports
    Property not found, load/script.js reports Object is not a function;
    neither runs anything of the module. *)
Theorem callObjectMethod_variants_agree_on_truthy_properties
  (path name method : string) (parameters : list value) (m : machine) (w : world) :
  (forall object m' w',
     exec (getObject path name) m w = Some (Ok object, m', w') ->
     (truthy (get_prop object method) = true ->
      exec (callObjectMethod path name method parameters) m w
      = exec (callObjectMethod_direct path name method parameters) m w) /\
     (truthy (get_prop object method) = false ->
      exec (callObjectMethod path name method parameters) m w
      = Some (Err (Error (PROPERTY_NOT_FOUND_ERROR +:+ ": " +:+ path +:+ ", "
                          +:+ name +:+ "." +:+ method)), m', w) /\
      exec (callObjectMethod_direct path name method parameters) m w
      = Some (Err (Error (OBJECT_IS_NOT_A_FUNCTION_ERROR +:+ ": " +:+ path +:+ ", "
                          +:+ name +:+ "." +:+ method)), m', w))) /\
  (forall e m' w',
     exec (getObject path name) m w = Some (Err e, m', w') ->
     exec (callObjectMethod path name method parameters) m w = Some (Err e, m', w') /\
     exec (callObjectMethod_direct path name method parameters) m w = Some (Err e, m', w')).
Proof.
  split.
  - intros object m' w' Hobj.
    pose proof (getObject_keeps_world _ _ _ _ _ _ _ Hobj) as ->.
    unfold callObjectMethod, callObjectMethod_direct, getObjectProperty.
    rewrite !exec_bind, Hobj. split.
    + intros Ht. simpl. by rewrite Ht.
    + intros Ht. simpl. rewrite Ht. simpl. split; [done|].
      assert (isFunction (get_prop object method) = false) as ->; [|done].
      by destruct (get_prop object method).
  - intros e m' w' Hobj.
    unfold callObjectMethod, callObjectMethod_direct, getObjectProperty.
    by rewrite !exec_bind, Hobj.
Qed.

(** X8: a safe form is the plain form behind one more check. From every
    state, [safeCallFunction], [safeCallNew] and [safeCallObjectMethod]
    either do exactly what [callFunction], [callNew] and [callObjectMethod]
    do (same result, same state of the loader, same world), or the target
    was found, its [length] differs from the number of parameters, and the
    call fails with the mismatch error in the world it started in. *)
Theorem safe_form_is_plain_form_or_mismatch
  (path name method : string) (parameters : list value) (m : machine) (w : world) :
  (exec (safeCallFunction path name parameters) m w
   = exec (callFunction path name parameters) m w \/
   exists fn m',
     exec (getFunction path name) m w = Some (Ok fn, m', w) /\
     strict_equal (get_prop fn "length") (array_length parameters) = false /\
     exec (safeCallFunction path name parameters) m w
     = Some (Err (Error (MISMATCHED_NUMBER_OF_PARAMETERS_ERROR +:+ ": " +:+ path
                         +:+ ", " +:+ name)), m', w)) /\
  (exec (safeCallNew path name parameters) m w
   = exec (callNew path name parameters) m w \/
   exists Class m',
     exec (getClass path name) m w = Some (Ok Class, m', w) /\
     strict_equal (get_prop Class "length") (array_length parameters) = false /\
     exec (safeCallNew path name parameters) m w
     = Some (Err (Error (MISMATCHED_NUMBER_OF_PARAMETERS_ERROR +:+ ": " +:+ path
                         +:+ ", " +:+ name)), m', w)) /\
  (exec (safeCallObjectMethod path name method parameters) m w
   = exec (callObjectMethod path name method parameters) m w \/
   exists fn m',
     exec (getObjectProperty path name method) m w = Some (Ok fn, m', w) /\
     isFunction fn = true /\
     strict_equal (get_prop fn "length") (array_length parameters) = false /\
     exec (safeCallObjectMethod path name method parameters) m w
     = Some (Err (Error (MISMATCHED_NUMBER_OF_PARAMETERS_ERROR +:+ ": " +:+ path
                         +:+ ", " +:+ name +:+ "." +:+ method)), m', w)).
Proof.
  assert (forall (pr : prog value) r m' w',
            (pr = getFunction path name \/ pr = getClass path name \/
             pr = getObjectProperty path name method) ->
            exec pr m w = Some (r, m', w') -> w' = w) as Hworld.
  { intros pr r m' w' Hpr. 
    assert (exists k, pr = bind (getObject path name) k /\
                      forall v m1 w1, exists r1, exec (k v) m1 w1 = Some (r1, m1, w1))
      as (k & Hpr' & Hk).
    { destruct Hpr as [-> | [-> | ->]]; eexists; (split; [reflexivity|]);
        intros v m1 w1; simpl.
      - destruct (isFunction v); simpl; eauto.
      - destruct (isClass v); simpl; eauto.
      - destruct (truthy (get_prop v method)); simpl; eauto. }
    subst pr. rewrite exec_bind.
    destruct (exec (getObject path name) m w) as [[[[v|e] m1] w1]|] eqn:Hobj; [| |done].
    - apply getObject_keeps_world in Hobj as ->.
      destruct (Hk v m1 w) as [r1 ->]. by intros [= _ _ <-].
    - apply getObject_keeps_world in Hobj as ->. by intros [= _ _ <-]. }
  split; [|split].
  - unfold safeCallFunction, callFunction. rewrite !exec_bind.
    destruct (exec (getFunction path name) m w) as [[[[fn|e] m1] w1]|] eqn:Hget;
      [|by left..].
    pose proof (Hworld _ _ _ _ (or_introl eq_refl) Hget) as ->.
    destruct (strict_equal (get_prop fn "length") (array_length parameters)) eqn:Heq;
      [by left|]. right. by exists fn, m1.
  - unfold safeCallNew, callNew. rewrite !exec_bind.
    destruct (exec (getClass path name) m w) as [[[[Class|e] m1] w1]|] eqn:Hget;
      [|by left..].
    pose proof (Hworld _ _ _ _ (or_intror (or_introl eq_refl)) Hget) as ->.
    destruct (strict_equal (get_prop Class "length") (array_length parameters)) eqn:Heq;
      [by left|]. right. by exists Class, m1.
  - unfold safeCallObjectMethod, callObjectMethod. rewrite !exec_bind.
    destruct (exec (getObjectProperty path name method) m w)
      as [[[[fn|e] m1] w1]|] eqn:Hget; [|by left..].
    pose proof (Hworld _ _ _ _ (or_intror (or_intror eq_refl)) Hget) as ->.
    destruct (isFunction fn) eqn:Hf; [|by left]. simpl.
    destruct (strict_equal (get_prop fn "length") (array_length parameters)) eqn:Heq;
      [by left|]. right. by exists fn, m1.
Qed.

(** X9: the name is checked before the loader is touched. With an empty
    object, function or class name every method fails with the Object not
    defined error and leaves the instance as it found it, in every state:
    no caller is registered and no import is started. *)
Theorem empty_name_is_rejected_before_any_load
  (path method : string) (segments : list string) (parameters : list value)
  (m : machine) (w : world) :
  let failure := Some (Err OBJECT_NOT_DEFINED_ERROR, m, w) in
  exec (getObject path "") m w = failure /\
  exec (getObjectProperty path "" method) m w = failure /\
  exec (getNestedObjectProperty path "" segments) m w = failure /\
  exec (getFunction path "") m w = failure /\
  exec (getClass path "") m w = failure /\
  exec (callNew path "" parameters) m w = failure /\
  exec (safeCallNew path "" parameters) m w = failure /\
  exec (callFunction path "" parameters) m w = failure /\
  exec (safeCallFunction path "" parameters) m w = failure /\
  exec (callObjectMethod path "" method parameters) m w = failure /\
  exec (callObjectMethod_direct path "" method parameters) m w = failure /\
  exec (safeCallObjectMethod path "" method parameters) m w = failure.
Proof. repeat split. Qed.

(** X10: a member of the loaded module whose value is falsy cannot be had.
    [getObject], and with it every other method, treats an export bound to
    0, the empty string, false or null like a missing one and fails with
    the Object not found error, without running anything of the module. *)
Theorem falsy_member_is_reported_as_not_found
  (path name method : string) (parameters : list value) (m : machine) (w : world) :
  truthy (p_loadedScript m) = true -> String.eqb name "" = false ->
  has_prop (p_loadedScript m) name = true ->
  falsy (get_prop (p_loadedScript m) name) = true ->
  let failure := Some (Err (Error (OBJECT_NOT_FOUND_ERROR +:+ ": " +:+ path +:+ ", "
                                   +:+ name)), return_loaded m, w) in
  exec (getObject path name) m w = failure /\
  exec (getObjectProperty path name method) m w = failure /\
  exec (getFunction path name) m w = failure /\
  exec (getClass path name) m w = failure /\
  exec (callFunction path name parameters) m w = failure /\
  exec (callNew path name parameters) m w = failure /\
  exec (callObjectMethod path name method parameters) m w = failure.
Proof.
  intros Ht Hname _ Hf%negb_true_iff.
  assert (exec (getObject path name) m w
          = Some (Err (Error (OBJECT_NOT_FOUND_ERROR +:+ ": " +:+ path +:+ ", "
                              +:+ name)), return_loaded m, w)) as Hobj.
  { rewrite (exec_getObject_loaded _ _ _ _ _ _ _ _ Ht), Hname. unfold getObject_found.
    by rewrite (get_prop_opt_truthy _ _ Ht), Hf. }
  unfold getObjectProperty, getFunction, getClass, callFunction, callNew,
    callObjectMethod, getFunction, getClass, getObjectProperty.
  by rewrite !exec_bind, !Hobj.
Qed.

(** X11: [callNew] cannot instantiate a class whose source text has
    anything but white space right after the keyword, such as the class
    expression [class{...}]: [isClass] rejects it, and [callNew] and
    [safeCallNew] fail with the Object is not a class error without
    constructing anything, while [callFunction] takes it for a function. *)
Theorem class_without_white_space_is_not_instantiated
  (path name rest : string) (c : ascii) (f : func) (parameters : list value)
  (m m' : machine) (w w' : world) :
  fn_src f = "class" +:+ String c rest -> is_whitespace c = false ->
  exec (getObject path name) m w = Some (Ok (VFun f), m', w') ->
  isClass (VFun f) = false /\
  exec (callNew path name parameters) m w
  = Some (Err (Error (OBJECT_IS_NOT_A_CLASS_ERROR +:+ ": " +:+ path +:+ ", " +:+ name)),
          m', w) /\
  exec (safeCallNew path name parameters) m w
  = Some (Err (Error (OBJECT_IS_NOT_A_CLASS_ERROR +:+ ": " +:+ path +:+ ", " +:+ name)),
          m', w) /\
  exec (getFunction path name) m w = Some (Ok (VFun f), m', w).
Proof.
  intros Hsrc Hc Hobj.
  assert (isClass (VFun f) = false) as Hclass.
  { unfold isClass. simpl. rewrite Hsrc. unfold class_regexp_test. simpl.
    by rewrite Hc. }
  split; [done|].
  pose proof (getObject_keeps_world _ _ _ _ _ _ _ Hobj) as ->.
  unfold callNew, safeCallNew, getClass, getFunction.
  by rewrite !exec_bind, !Hobj, Hclass.
Qed.

End Facts.

(** *** On the example modules *)

Local Abbreviation run_flaky :=
  (Script.exec Examples.world Examples.call_fn Examples.construct_fn
               MoreExamples.flaky_import).

Local Abbreviation run_edge :=
  (Script.exec Examples.world Examples.call_fn Examples.construct_fn
               (fun _ => MoreExamples.module_)).

Lemma fresh_reachable (href : string) : reachable (fresh href).
Proof. by exists href, []. Qed.

Lemma edge_loaded_reachable : reachable MoreExamples.loaded.
Proof.
  exists MoreExamples.href, [Call; Settle 0 MoreExamples.module_; Resume 0]. reflexivity.
Qed.

Lemma getObject_settles_as_the_import_does_witness :
  exists m1 m2,
    run_flaky (getObject MoreExamples.href "version") (fresh MoreExamples.href) []
      = Some (Err Examples.boom, m1, []) /\
    p_loadingScript m1 = None /\ imports m1 = 1 /\
    run_flaky (getObject MoreExamples.href "version") m1 []
      = Some (Ok (VStr "1.0"), m2, []) /\
    imports m2 = 2 /\ p_loadedScript m2 = VObj 30 MoreExamples.exports.
Proof.
  destruct (getObject_settles_as_the_import_does
              Examples.world Examples.call_fn Examples.construct_fn
              MoreExamples.flaky_import MoreExamples.href "version"
              (fresh MoreExamples.href) [] (fresh_reachable _) eq_refl eq_refl eq_refl)
    as (m1 & Hi1 & Hfail & Hl1 & m2 & Hi2 & Hok & Hloaded).
  exists m1, m2.
  split; [exact Hfail|]. split; [exact Hl1|]. split; [exact Hi1|].
  split; [exact Hok|]. split; [exact Hi2|exact Hloaded].
Defined.

Lemma member_kind_is_checked_witness :
  (* a string is no function, an arrow function is no class *)
  run_edge (callFunction MoreExamples.href "version" []) MoreExamples.loaded []
    = Some (Err (Error "Object is not a function: file:///edge.js, version"),
            return_loaded MoreExamples.loaded, []) /\
  run_edge (callNew MoreExamples.href "arrow" [VNum 1]) MoreExamples.loaded []
    = Some (Err (Error "Object is not a class: file:///edge.js, arrow"),
            return_loaded MoreExamples.loaded, []) /\
  (* a class is a function *)
  Script.exec Examples.world Examples.call_fn Examples.construct_fn Examples.import_
              (getFunction Examples.href "Pair") Examples.loaded []
    = Some (Ok (VFun Examples.Pair), return_loaded Examples.loaded, []).
Proof.
  split; [|split].
  - apply (proj1 (member_kind_is_checked
                    Examples.world Examples.call_fn Examples.construct_fn
                    (fun _ => MoreExamples.module_) MoreExamples.href "version"
                    (VStr "1.0") [] MoreExamples.loaded (return_loaded MoreExamples.loaded)
                    [] [] eq_refl) eq_refl).
  - apply (proj1 (proj2 (member_kind_is_checked
                    Examples.world Examples.call_fn Examples.construct_fn
                    (fun _ => MoreExamples.module_) MoreExamples.href "arrow"
                    (VFun MoreExamples.arrow) [VNum 1] MoreExamples.loaded
                    (return_loaded MoreExamples.loaded) [] [] eq_refl)) eq_refl).
  - apply (proj2 (proj2 (member_kind_is_checked
                    Examples.world Examples.call_fn Examples.construct_fn
                    Examples.import_ Examples.href "Pair"
                    (VFun Examples.Pair) [] Examples.loaded
                    (return_loaded Examples.loaded) [] [] eq_refl)) eq_refl).
Defined.

Lemma callObjectMethod_variants_agree_on_truthy_properties_witness :
  (* a method: both call it *)
  run_edge (callObjectMethod MoreExamples.href "settings" "apply" [VNum 1])
           MoreExamples.loaded []
    = run_edge (callObjectMethod_direct MoreExamples.href "settings" "apply" [VNum 1])
               MoreExamples.loaded [] /\
  (* a property bound to null: the two errors *)
  run_edge (callObjectMethod MoreExamples.href "settings" "hook" []) MoreExamples.loaded []
    = Some (Err (Error "Property not found: file:///edge.js, settings.hook"),
            return_loaded MoreExamples.loaded, []) /\
  run_edge (callObjectMethod_direct MoreExamples.href "settings" "hook" [])
           MoreExamples.loaded []
    = Some (Err (Error "Object is not a function: file:///edge.js, settings.hook"),
            return_loaded MoreExamples.loaded, []).
Proof.
  pose (settings := default VUndefined (assoc "settings" MoreExamples.exports)).
  pose (thm := fun method parameters =>
          proj1 (callObjectMethod_variants_agree_on_truthy_properties
                   Examples.world Examples.call_fn Examples.construct_fn
                   (fun _ => MoreExamples.module_) MoreExamples.href "settings"
                   method parameters MoreExamples.loaded [])
                settings (return_loaded MoreExamples.loaded) [] eq_refl).
  split.
  - apply (proj1 (thm "apply" [VNum 1]) eq_refl).
  - apply (proj2 (thm "hook" []) eq_refl).
Defined.

Lemma falsy_member_is_reported_as_not_found_witness :
  has_prop (VObj 30 MoreExamples.exports) "count" = true /\
  run_edge (getObject MoreExamples.href "count") MoreExamples.loaded []
    = Some (Err (Error "Object not found: file:///edge.js, count"),
            return_loaded MoreExamples.loaded, []).
Proof.
  split; [reflexivity|].
  apply (proj1 (falsy_member_is_reported_as_not_found
                  Examples.world Examples.call_fn Examples.construct_fn
                  (fun _ => MoreExamples.module_) MoreExamples.href "count" "" []
                  MoreExamples.loaded [] eq_refl eq_refl eq_refl eq_refl)).
Defined.

Lemma class_without_white_space_is_not_instantiated_witness :
  isClass (VFun MoreExamples.Anonymous) = false /\
  run_edge (callNew MoreExamples.href "Anonymous" [VNum 7]) MoreExamples.loaded []
    = Some (Err (Error "Object is not a class: file:///edge.js, Anonymous"),
            return_loaded MoreExamples.loaded, []).
Proof.
  destruct (class_without_white_space_is_not_instantiated
              Examples.world Examples.call_fn Examples.construct_fn
              (fun _ => MoreExamples.module_) MoreExamples.href "Anonymous"
              "constructor(x){this.x=x}}" "{"%char MoreExamples.Anonymous [VNum 7]
              MoreExamples.loaded (return_loaded MoreExamples.loaded) [] []
              eq_refl eq_refl eq_refl) as (Hclass & Hnew & _).
  split; [exact Hclass|exact Hnew].
Defined.

End ScriptEdgeFacts.

(** ** lib/path/script.js: the path of the script *)

Module LibPathModulesFacts.
Import LibPathModules.

Lemma string_length_app (a b : string) :
  String.length (a +:+ b) = String.length a + String.length b.
Proof. induction a as [|c a IH]; simpl; [done|]. by rewrite IH. Qed.

Lemma substring_all (s : string) : String.substring 0 (String.length s) s = s.
Proof. induction s as [|c s IH]; simpl; [done|]. by rewrite IH. Qed.

Lemma substring_skip (a b : string) (n : nat) :
  String.substring (String.length a) n (a +:+ b) = String.substring 0 n b.
Proof. induction a as [|c a IH]; simpl; [done|]. apply IH. Qed.

Lemma ends_with_app (suffix s : string) : Loader.ends_with suffix (s +:+ suffix) = true.
Proof.
  unfold Loader.ends_with. rewrite string_length_app.
  apply andb_true_iff. split; [apply Nat.leb_le; lia|].
  replace (String.length s + String.length suffix - String.length suffix)
    with (String.length s) by lia.
  rewrite substring_skip, substring_all. apply String.eqb_refl.
Qed.



Lemma join_pair (a b : string) : String.concat "/" [a; b] = a +:+ "/" +:+ b.
Proof. done. Qed.

Lemma join_pair_not_empty (a b : string) : String.eqb (String.concat "/" [a; b]) "" = false.
Proof. rewrite join_pair. by destruct a. Qed.

Lemma fullPath_uncached (s : instance) :
  p_fullPath s = None ->
  fullPath s =
  (String.concat "/" (p_nestedModules s) +:+ "/" +:+ p_scriptName s,
   Instance (p_nestedModules s) (p_scriptName s)
            (Some (String.concat "/" (p_nestedModules s) +:+ "/" +:+ p_scriptName s))).
Proof. unfold fullPath. by intros ->. Qed.

Lemma fullPath_cached (s : instance) (path : string) :
  p_fullPath s = Some path -> String.eqb path "" = false -> fullPath s = (path, s).
Proof. unfold fullPath. by intros -> ->. Qed.




Lemma access_keeps_cache (s : instance) (a : access) (path : string) :
  p_fullPath s = Some path -> String.eqb path "" = false ->
  p_fullPath (apply_access s a) = Some path.
Proof.
  intros Hc Hne. destruct a; simpl; [|done].
  by rewrite (fullPath_cached s path).
Qed.

Lemma iter_remove_modules (k : nat) (s : instance) :
  p_nestedModules (Nat.iter k removeNestedModule s) = drop k (p_nestedModules s) /\
  p_scriptName (Nat.iter k removeNestedModule s) = p_scriptName s /\
  p_fullPath (Nat.iter k removeNestedModule s) = p_fullPath s.
Proof.
  induction k as [|k (IH1 & IH2 & IH3)]; simpl; [by rewrite drop_0|].
  rewrite IH1, IH2, IH3. split; [|done].
  generalize (p_nestedModules s). clear. intros l. revert k.
  induction l as [|x l IH]; intros k; [by destruct k|].
  destruct k as [|k]; simpl; [by rewrite drop_0|]. apply IH.
Qed.

(** X13: the path of the script is fixed by its first read. Before
    [fullPath] has been read, dropping nested modules shortens the path it
    will give; once it has been read, the path is cached and no later read
    and no later [removeNestedModule], in any order, changes what
    [fullPath] returns, although the modules themselves are dropped. *)
Theorem fullPath_is_fixed_by_its_first_read
  (scriptName : string) (modules : list string) (s : instance) :
  constructor scriptName modules = Ok s ->
  (forall k,
     fst (fullPath (Nat.iter k removeNestedModule s))
     = String.concat "/" (drop k modules) +:+ "/" +:+ p_scriptName s) /\
  (forall accesses,
     let s' := foldl apply_access (snd (fullPath s)) accesses in
     fst (fullPath s') = fst (fullPath s) /\
     p_nestedModules s' = drop (removals accesses) modules).
Proof.
  intros Hs.
  assert (p_fullPath s = None /\ p_nestedModules s = modules) as [Hnone Hmods].
  { unfold constructor in Hs. destruct (String.eqb scriptName ""); [done|].
    by injection Hs as <-. }
  split.
  - intros k. destruct (iter_remove_modules k s) as (H1 & H2 & H3).
    rewrite fullPath_uncached by congruence. simpl. by rewrite H1, H2, Hmods.
  - intros accesses. rewrite (fullPath_uncached s Hnone). simpl fst. simpl snd.
    set (path := String.concat "/" (p_nestedModules s) +:+ "/" +:+ p_scriptName s).
    assert (String.eqb path "" = false) as Hne by (unfold path; by destruct (String.concat _ _)).
    assert (forall s0,
              p_fullPath s0 = Some path ->
              p_fullPath (foldl apply_access s0 accesses) = Some path /\
              p_nestedModules (foldl apply_access s0 accesses)
              = drop (removals accesses) (p_nestedModules s0)) as Hfold.
    { induction accesses as [|a accesses IH]; intros s0 Hc; simpl.
      - by rewrite drop_0.
      - destruct (IH (apply_access s0 a) (access_keeps_cache _ _ _ Hc Hne)) as [-> ->].
        split; [done|]. destruct a; simpl.
        + by rewrite (fullPath_cached s0 path).
        + generalize (removals accesses). generalize (p_nestedModules s0). clear.
          intros l n. destruct l; simpl; [by rewrite drop_nil|done]. }
    destruct (Hfold (Instance (p_nestedModules s) (p_scriptName s) (Some path)) eq_refl)
      as [Hc Hm].
    split; [|by rewrite Hm, <-Hmods].
    by rewrite (fullPath_cached _ path).
Qed.

Lemma fullPath_is_fixed_by_its_first_read_witness :
  let s := Instance ["lib"; "tools"] "run.js" None in
  fst (fullPath s) = "lib/tools/run.js" /\
  fst (fullPath (removeNestedModule s)) = "tools/run.js" /\
  fst (fullPath (removeNestedModule (removeNestedModule (snd (fullPath s)))))
    = "lib/tools/run.js" /\
  p_nestedModules (removeNestedModule (removeNestedModule (snd (fullPath s)))) = [].
Proof.
  destruct (fullPath_is_fixed_by_its_first_read "run" ["lib"; "tools"]
              (Instance ["lib"; "tools"] "run.js" None) eq_refl) as [Hbefore Hafter].
  split; [reflexivity|]. split; [exact (Hbefore 1)|].
  destruct (Hafter [RemoveNestedModule; RemoveNestedModule]) as [Hpath Hmods].
  split; [exact Hpath|exact Hmods].
Defined.

(** X14: the nested modules are consumed from the front. After [k] calls
    of [removeNestedModule], [nestedModule] is the module at position [k]
    of those given to the constructor, or [null] when there is none, and
    [hasNestedModule] tells which; removing from an instance that has no
    module left changes nothing. *)
Theorem nested_modules_are_consumed_in_order (s : instance) (k : nat) :
  let s' := Nat.iter k removeNestedModule s in
  p_nestedModules s' = drop k (p_nestedModules s) /\
  hasNestedModule s' = bool_decide (k < length (p_nestedModules s)) /\
  nestedModule s' = match p_nestedModules s !! k with
                    | Some module => VStr module
                    | None => VNull
                    end /\
  (hasNestedModule s' = false -> removeNestedModule s' = s').
Proof.
  destruct (iter_remove_modules k s) as (Hm & Hn & Hp). simpl.
  split; [done|].
  assert (hasNestedModule (Nat.iter k removeNestedModule s)
          = bool_decide (k < length (p_nestedModules s))) as Hhas.
  { unfold hasNestedModule. rewrite Hm, length_drop.
    case_bool_decide; [apply Nat.ltb_lt|apply Nat.ltb_ge]; lia. }
  split; [done|]. split.
  - unfold nestedModule. rewrite Hhas, Hm.
    case_bool_decide as Hk; simpl.
    + destruct (lookup_lt_is_Some_2 _ _ Hk) as [x Hx]. rewrite Hx.
      rewrite <-(Nat.add_0_r k), <-lookup_drop in Hx.
      destruct (drop k (p_nestedModules s)) as [|y l]; simpl in Hx; [done|].
      by injection Hx as ->.
    + by rewrite lookup_ge_None_2 by lia.
  - rewrite Hhas. intros Hk%bool_decide_eq_false.
    rewrite drop_ge in Hm by lia.
    destruct (Nat.iter k removeNestedModule s) as [mods name cache].
    simpl in Hm. subst mods. reflexivity.
Qed.

End LibPathModulesFacts.

(** ** lib/path/script.js: the unchecked methods *)

Module LibPathMethodsFacts.
Import Loader Async.

Section Facts.

Variable world : Type.
Variable call_fn : func -> list value -> world -> result value * world.
Variable construct_fn : func -> list value -> world -> result value * world.
Variable import_ : nat -> outcome.

Local Abbreviation exec_lib :=
  (Unchecked.exec_on machine (LibPathMethods.await_loadedScript import_)
                     world call_fn construct_fn).

Lemma exec_on_bind {M A B : Type} (await_ : M -> option (result value * M))
  (pr : prog A) (k : A -> prog B) (m : M) (w : world) :
  Unchecked.exec_on M await_ world call_fn construct_fn (bind pr k) m w =
  match Unchecked.exec_on M await_ world call_fn construct_fn pr m w with
  | Some (Ok a, m', w') => Unchecked.exec_on M await_ world call_fn construct_fn (k a) m' w'
  | Some (Err e, m', w') => Some (Err e, m', w')
  | None => None
  end.
Proof.
  revert m w. induction pr as [a|e|h IH|f args h IH|f args h IH]; intros m w; simpl.
  - done.
  - done.
  - destruct (await_ m) as [[[script|e] m']|]; [apply IH|done..].
  - destruct (call_fn f args w) as [[v|e] w']; [apply IH|done].
  - destruct (construct_fn f args w) as [[v|e] w']; [apply IH|done].
Qed.

Lemma exec_on_await {M A : Type} (await_ : M -> option (result value * M))
  (k : value -> prog A) (m : M) (w : world) :
  Unchecked.exec_on M await_ world call_fn construct_fn (AwaitLoadedScript k) m w =
  match await_ m with
  | Some (Ok script, m') => Unchecked.exec_on M await_ world call_fn construct_fn (k script) m' w
  | Some (Err e, m') => Some (Err e, m', w)
  | None => None
  end.
Proof. done. Qed.

Lemma await_lib_loaded (m : machine) :
  truthy (p_loadedScript m) = true ->
  LibPathMethods.await_loadedScript import_ m
  = Some (Ok (p_loadedScript m), return_loaded m).
Proof.
  intros Ht. unfold LibPathMethods.await_loadedScript, LibPathScript.loadedScript.
  rewrite Ht.
  assert (callers (return_loaded m) !! length (callers m)
          = Some (Returned (p_loadedScript m))) as ->
    by (simpl; by apply list_lookup_middle).
  done.
Qed.

Lemma read_truthy (v : value) (name : string) :
  truthy v = true -> Unchecked.read v name = Ret (get_prop v name).
Proof. by destruct v. Qed.

Lemma exec_lib_object (path name : string) (m : machine) (w : world) :
  truthy (p_loadedScript m) = true -> String.eqb name "" = false ->
  exec_lib (Unchecked.object path name) m w
  = Some (Script.getObject_found path name (p_loadedScript m), return_loaded m, w).
Proof.
  intros Ht Hname. unfold Unchecked.object, Script.getObject_found. rewrite Hname.
  simpl. rewrite (await_lib_loaded _ Ht), (read_truthy _ _ Ht).
  rewrite (ScriptFacts.get_prop_opt_truthy _ _ Ht). simpl.
  by destruct (truthy (get_prop (p_loadedScript m) name)).
Qed.

(** X15: the methods of lib/path/script.js look a member up as those of
    load/script.js do, and then use it unchecked. On a loaded instance
    [object] gives exactly what [getObject] gives. [callFunction] calls
    and [new] constructs whatever function the member is, class or not,
    [new] with the array of the parameters as the one argument; a truthy
    member that is no function makes both fail with the [TypeError] of the
    call itself, and a missing method does the same to
    [callObjectMethod]. *)
Theorem libpath_methods_use_the_member_unchecked
  (path name : string) (parameters : list value) (m : machine) (w : world) :
  truthy (p_loadedScript m) = true -> String.eqb name "" = false ->
  exec_lib (Unchecked.object path name) m w
  = Script.exec world call_fn construct_fn import_ (Script.getObject path name) m w /\
  (forall f,
     get_prop (p_loadedScript m) name = VFun f ->
     exec_lib (Unchecked.callFunction path name parameters) m w
     = Script.outcome_of (return_loaded m) (call_fn f parameters w) /\
     exec_lib (Unchecked.new path name parameters) m w
     = Script.outcome_of (return_loaded m) (construct_fn f [VArr parameters] w)) /\
  (truthy (get_prop (p_loadedScript m) name) = true ->
   isFunction (get_prop (p_loadedScript m) name) = false ->
   exec_lib (Unchecked.callFunction path name parameters) m w
   = Some (Err TYPE_ERROR_NOT_A_FUNCTION, return_loaded m, w) /\
   exec_lib (Unchecked.new path name parameters) m w
   = Some (Err TYPE_ERROR_NOT_A_CONSTRUCTOR, return_loaded m, w) /\
   forall method,
     isFunction (get_prop (get_prop (p_loadedScript m) name) method) = false ->
     exec_lib (Unchecked.callObjectMethod path name method parameters) m w
     = Some (Err TYPE_ERROR_NOT_A_FUNCTION, return_loaded m, w)).
Proof.
  intros Ht Hname.
  pose proof (exec_lib_object path name m w Ht Hname) as Hobj.
  assert (forall member,
            get_prop (p_loadedScript m) name = member -> truthy member = true ->
            exec_lib (Unchecked.object path name) m w
            = Some (Ok member, return_loaded m, w) /\
            exec_lib (Unchecked.new path name parameters) m w
            = exec_lib (new_value member [VArr parameters]) (return_loaded m) w)
    as Hmember.
  { intros member Hget Hm. split.
    - rewrite Hobj. unfold Script.getObject_found.
      by rewrite (ScriptFacts.get_prop_opt_truthy _ _ Ht), Hget, Hm.
    - unfold Unchecked.new. rewrite Hname. simpl.
      rewrite (await_lib_loaded _ Ht), (read_truthy _ _ Ht). simpl.
      by rewrite Hget, Hm. }
  split; [|split].
  - rewrite Hobj. by rewrite (ScriptFacts.exec_getObject_loaded _ _ _ _ _ _ _ _ Ht), Hname.
  - intros f Hget. destruct (Hmember (VFun f) Hget eq_refl) as [Ho Hn]. split.
    + unfold Unchecked.callFunction. rewrite exec_on_bind, Ho. simpl.
      by destruct (call_fn f parameters w) as [[v|e] w'].
    + rewrite Hn. simpl. by destruct (construct_fn f [VArr parameters] w) as [[v|e] w'].
  - intros Hm Hf. destruct (Hmember _ eq_refl Hm) as [Ho Hn].
    assert (forall v args, isFunction v = false ->
              call_value v args = Throw TYPE_ERROR_NOT_A_FUNCTION) as Hcall
      by (intros v args Hv; by destruct v).
    split; [|split].
    + unfold Unchecked.callFunction. by rewrite exec_on_bind, Ho, Hcall.
    + rewrite Hn. by destruct (get_prop (p_loadedScript m) name).
    + intros method Hmethod. unfold Unchecked.callObjectMethod.
      rewrite exec_on_bind, Ho, (read_truthy _ _ Hm). simpl.
      by rewrite Hcall.
Qed.

End Facts.

Local Abbreviation run_lib :=
  (Unchecked.exec_on machine
     (LibPathMethods.await_loadedScript (fun _ => MoreExamples.module_))
     Examples.world Examples.call_fn Examples.construct_fn).

Lemma libpath_methods_use_the_member_unchecked_witness :
  (* a constructor function that is no class is constructed *)
  run_lib (Unchecked.new MoreExamples.href "Legacy" [VNum 1]) MoreExamples.loaded []
    = Script.outcome_of (return_loaded MoreExamples.loaded)
        (Examples.construct_fn MoreExamples.Legacy [VArr [VNum 1]] []) /\
  (* a string is called like a function *)
  run_lib (Unchecked.callFunction MoreExamples.href "version" []) MoreExamples.loaded []
    = Some (Err TYPE_ERROR_NOT_A_FUNCTION, return_loaded MoreExamples.loaded, []) /\
  (* a property bound to null is called like a method *)
  run_lib (Unchecked.callObjectMethod MoreExamples.href "settings" "hook" [])
          MoreExamples.loaded []
    = Some (Err TYPE_ERROR_NOT_A_FUNCTION, return_loaded MoreExamples.loaded, []).
Proof.
  pose (thm := fun name parameters =>
          libpath_methods_use_the_member_unchecked
            Examples.world Examples.call_fn Examples.construct_fn
            (fun _ => MoreExamples.module_) MoreExamples.href name parameters
            MoreExamples.loaded [] eq_refl).
  split; [|split].
  - apply (proj2 (proj1 (proj2 (thm "Legacy" [VNum 1] eq_refl)) MoreExamples.Legacy eq_refl)).
  - apply (proj1 (proj2 (proj2 (thm "version" [] eq_refl)) eq_refl eq_refl)).
  - apply (proj2 (proj2 (proj2 (proj2 (thm "settings" [] eq_refl)) eq_refl eq_refl))
                 "hook" eq_refl).
Defined.

End LibPathMethodsFacts.

(** ** path/script.js *)

Module PathFacts.
Import PathScript.

(** What holds of every state of an instance: [#nestedModules] is never
    assigned, the cached module is either unset or a module, and a caller
    that started an import awaits [undefined]. *)
Record inv (m : machine) : Prop := Inv {
  inv_modules : p_nestedModules m = VUndefined;
  inv_loaded : p_loadedScript m = VUndefined \/
               exists ref exports, p_loadedScript m = VObj ref exports;
  inv_callers : forall c v, callers m !! c = Some (AwaitValue v) -> v = VUndefined
}.

(** What a listener that runs makes of a status. *)
Definition resolved (script : value) (st : status) : status :=
  match st with
  | AwaitLoadEvent => Resolved script
  | _ => st
  end.

Lemma path_wake_lookup (script : value) (c c' : nat) (cs : list status) :
  wake script c cs !! c' =
  if decide (c = c') then resolved script <$> cs !! c' else cs !! c'.
Proof.
  unfold wake. destruct (decide (c = c')) as [->|Hne].
  - destruct (cs !! c') as [st|] eqn:Hc; [|by rewrite Hc].
    destruct st; simpl; try by rewrite Hc.
    apply list_lookup_insert_eq. by eapply lookup_lt_Some.
  - destruct (cs !! c) as [[]|]; try done.
    by apply list_lookup_insert_ne.
Qed.

Lemma path_wake_all_lookup (script : value) (ls : list nat) (cs : list status) (c : nat) :
  foldr (wake script) cs ls !! c =
  if decide (c ∈ ls) then resolved script <$> cs !! c else cs !! c.
Proof.
  induction ls as [|l ls IH]; simpl.
  - destruct (decide (c ∈ [])) as [H|]; [by apply not_elem_of_nil in H|done].
  - rewrite path_wake_lookup, IH.
    destruct (decide (l = c)) as [->|Hne], (decide (c ∈ ls)) as [Hin|Hnin];
      case_decide as Hc; try done.
    + destruct (cs !! c) as [[]|]; simpl; done.
    + exfalso. apply Hc. by right.
    + exfalso. apply Hc. by left.
    + exfalso. apply Hc. by right.
    + apply elem_of_cons in Hc as [?|?]; congruence.
Qed.

Lemma path_inv_constructor (scriptPath : string) (m0 : machine) :
  constructor scriptPath = Ok m0 -> inv m0.
Proof.
  unfold constructor. destruct (String.eqb scriptPath ""); [done|].
  intros [= <-]. split; simpl; [done|by left|]. intros c v H. by destruct c.
Qed.

Lemma path_inv_step (ev : event) (m m' : machine) : inv m -> step ev m = Some m' -> inv m'.
Proof.
  intros [Hm Hl Hc]. destruct ev as [|p o|c]; simpl.
  - intros [= <-]. unfold loadedScript.
    destruct (truthy (p_loadedScript m)) eqn:Ht; [|destruct (p_loadingScript m)];
      split; simpl; try done;
      intros c v [H|[_ H]]%LoaderFacts.lookup_snoc_cases; eauto; try done.
    injection H as ->.
    destruct Hl as [->|(ref & ex & Hobj)]; [done|]. by rewrite Hobj in Ht.
  - case_bool_decide; [|done]. intros [= <-].
    destruct o as [ref ex|e]; split; simpl; try done; [by eauto|].
    intros c v. rewrite path_wake_all_lookup.
    destruct (callers m !! c) as [st|] eqn:Hst; [|by case_decide].
    case_decide; simpl; [|intros [= ->]; by eapply Hc].
    destruct st; simpl; intros [= <-]. by eapply Hc.
  - unfold resume. destruct (callers m !! c) as [[v| |v|v]|] eqn:Hst; try done;
      intros [= <-]; split; simpl; try done;
      intros c' v'; (destruct (decide (c = c')) as [<-|Hne];
        [rewrite list_lookup_insert_eq by (by eapply lookup_lt_Some); done
        |rewrite list_lookup_insert_ne by done; apply Hc]).
Qed.

Lemma path_inv_run (evs : list event) (m m' : machine) : inv m -> run evs m = Some m' -> inv m'.
Proof.
  revert m. induction evs as [|ev evs IH]; intros m Hinv; simpl.
  - by intros [= <-].
  - destruct (step ev m) as [m1|] eqn:Hstep; [|done]. simpl.
    apply IH. by eapply path_inv_step.
Qed.

(** What a caller awaits or has returned does not change any more. *)
Lemma path_fixed_step (ev : event) (m m' : machine) (c : nat) (v : value) :
  step ev m = Some m' ->
  callers m !! c = Some (AwaitValue v) \/ callers m !! c = Some (Returned v) ->
  callers m' !! c = Some (AwaitValue v) \/ callers m' !! c = Some (Returned v).
Proof.
  intros Hstep Hc. destruct ev as [|p o|c']; simpl in Hstep.
  - injection Hstep as <-. unfold loadedScript.
    destruct (truthy _); [|destruct (p_loadingScript m)]; simpl;
      destruct Hc as [Hc|Hc]; [left|right|left|right|left|right];
      by apply lookup_app_l_Some.
  - case_bool_decide; [|done]. injection Hstep as <-.
    destruct o as [ref ex|e]; simpl; [|done].
    rewrite path_wake_all_lookup. destruct Hc as [Hc|Hc]; rewrite Hc;
      case_decide; simpl; eauto.
  - unfold resume in Hstep.
    destruct (callers m !! c') as [st|] eqn:Hst; [|done].
    destruct (decide (c' = c)) as [->|Hne].
    + rewrite Hst in Hc. right.
      destruct Hc as [[= ->]|[= ->]]; [|done]. injection Hstep as <-. simpl.
      apply list_lookup_insert_eq. by eapply lookup_lt_Some.
    + destruct st; try done; injection Hstep as <-; simpl;
        by rewrite list_lookup_insert_ne.
Qed.

Lemma path_fixed_run (evs : list event) (m m' : machine) (c : nat) (v : value) :
  run evs m = Some m' ->
  callers m !! c = Some (AwaitValue v) \/ callers m !! c = Some (Returned v) ->
  callers m' !! c = Some (AwaitValue v) \/ callers m' !! c = Some (Returned v).
Proof.
  revert m. induction evs as [|ev evs IH]; intros m; simpl.
  - by intros [= <-].
  - destruct (step ev m) as [m1|] eqn:Hstep; [|done]. simpl.
    intros Hrun Hc. eapply IH; [done|]. by eapply path_fixed_step.
Qed.

(** X16: in path/script.js the caller that starts the import never gets
    the module. It awaits [this.#loadedScript], which is still unset, so
    whatever happens afterwards, the import fulfilled or rejected, other
    callers entering, it is resumed with [undefined] and returns
    [undefined]. *)
Theorem path_initiator_returns_undefined
  (scriptPath : string) (m0 m : machine) (evs : list event) :
  constructor scriptPath = Ok m0 -> run evs m0 = Some m ->
  truthy (p_loadedScript m) = false -> p_loadingScript m = None ->
  let c := length (callers m) in
  imports (loadedScript m) = S (imports m) /\
  callers (loadedScript m) !! c = Some (AwaitValue VUndefined) /\
  (forall evs' m',
     run evs' (loadedScript m) = Some m' ->
     callers m' !! c = Some (AwaitValue VUndefined) \/
     callers m' !! c = Some (Returned VUndefined)) /\
  (forall evs' m',
     run evs' (loadedScript m) = Some m' ->
     callers m' !! c = Some (AwaitValue VUndefined) ->
     exists m'', step (Resume c) m' = Some m'' /\
                 callers m'' !! c = Some (Returned VUndefined)).
Proof.
  intros Hm0 Hrun Ht Hl c.
  assert (inv m) as Hinv by (eapply path_inv_run; [by eapply path_inv_constructor|done]).
  assert (p_loadedScript m = VUndefined) as Hu.
  { destruct (inv_loaded _ Hinv) as [?|(ref & ex & Hobj)]; [done|]. by rewrite Hobj in Ht. }
  assert (callers (loadedScript m) !! c = Some (AwaitValue VUndefined)) as Hc.
  { unfold loadedScript. rewrite Ht, Hl, Hu. simpl. by apply list_lookup_middle. }
  split; [unfold loadedScript; by rewrite Ht, Hl|]. split; [done|]. split.
  - intros evs' m' Hrun'. eapply path_fixed_run; [done|by left].
  - intros evs' m' Hrun' Hc'. simpl. unfold resume. rewrite Hc'.
    eexists. split; [done|]. simpl.
    apply list_lookup_insert_eq. by eapply lookup_lt_Some.
Qed.

Lemma path_initiator_returns_undefined_witness :
  exists m0 m',
    constructor "/lib/mathutils" = Ok m0 /\
    run [Call; Call; Settle 0 Examples.mathutils; Resume 0; Resume 1] m0 = Some m' /\
    callers m' = [Returned VUndefined; Returned (VObj 10 Examples.mathutils_exports)].
Proof.
  eexists _, _. split; [reflexivity|].
  destruct (path_initiator_returns_undefined "/lib/mathutils" _ _ [] eq_refl eq_refl
              eq_refl eq_refl) as (_ & _ & Hfixed & _).
  destruct (Hfixed [Call; Settle 0 Examples.mathutils; Resume 0; Resume 1] _ eq_refl)
    as [H|H]; [discriminate H|].
  split; reflexivity.
Defined.

(** X17: in path/script.js nothing assigns [#nestedModules], so on every
    instance, in every state, [hasNestedModule], [nestedModule] and
    [removeNestedModule] throw a [TypeError]. *)
Theorem path_nested_module_accessors_throw
  (scriptPath : string) (m0 m : machine) (evs : list event) :
  constructor scriptPath = Ok m0 -> run evs m0 = Some m ->
  hasNestedModule m = Err (Unchecked.TYPE_ERROR_READ VUndefined "length") /\
  nestedModule m = Err (Unchecked.TYPE_ERROR_READ VUndefined "length") /\
  removeNestedModule m = Err (Unchecked.TYPE_ERROR_READ VUndefined "shift").
Proof.
  intros Hm0 Hrun.
  assert (inv m) as [Hmod _ _] by (eapply path_inv_run; [by eapply path_inv_constructor|done]).
  unfold nestedModule, hasNestedModule, removeNestedModule. by rewrite Hmod.
Qed.

Lemma path_nested_module_accessors_throw_witness :
  exists m0 m,
    constructor "/lib/mathutils.js" = Ok m0 /\
    run [Call; Settle 0 Examples.mathutils; Call] m0 = Some m /\
    hasNestedModule m
    = Err (Error "TypeError: Cannot read properties of undefined (reading 'length')").
Proof.
  eexists _, _. split; [reflexivity|]. split; [reflexivity|].
  apply (path_nested_module_accessors_throw "/lib/mathutils.js" _ _
           [Call; Settle 0 Examples.mathutils; Call] eq_refl eq_refl).
Defined.

Section Methods.

Variable world : Type.
Variable call_fn : func -> list value -> world -> result value * world.
Variable construct_fn : func -> list value -> world -> result value * world.
Variable import_ : nat -> Loader.outcome.

Local Abbreviation exec_path :=
  (Unchecked.exec_on machine (await_loadedScript import_) world call_fn construct_fn).

(** X18: on a new instance of path/script.js the first call of any method
    fails. [loadedScript] hands the first caller [undefined], and reading
    the member off it throws a [TypeError], whatever the import will do;
    the import has been started and is still pending. A second call waits
    for that import: it finds the member if the import is fulfilled, and
    never settles if it is rejected. *)
Theorem path_first_call_reads_undefined
  (scriptPath name method : string) (parameters : list value) (m0 : machine) (w : world) :
  constructor scriptPath = Ok m0 -> String.eqb name "" = false ->
  let path := p_scriptPath m0 in
  let failure m1 := Some (Err (Unchecked.TYPE_ERROR_READ VUndefined name), m1, w) in
  exists m1,
    imports m1 = 1 /\ pending m1 = [0] /\
    exec_path (Unchecked.object path name) m0 w = failure m1 /\
    exec_path (Unchecked.new path name parameters) m0 w = failure m1 /\
    exec_path (Unchecked.callFunction path name parameters) m0 w = failure m1 /\
    exec_path (Unchecked.callObjectMethod path name method parameters) m0 w = failure m1 /\
    match import_ 0 with
    | Loader.Fulfilled ref exports =>
        exists m2,
          exec_path (Unchecked.object path name) m1 w
          = Some (Script.getObject_found path name (VObj ref exports), m2, w) /\
          p_loadedScript m2 = VObj ref exports /\ imports m2 = 1
    | Loader.Rejected e =>
        exec_path (Unchecked.object path name) m1 w = None
    end.
Proof.
  unfold constructor. destruct (String.eqb scriptPath ""); [done|].
  intros [= <-] Hname. cbn [p_scriptPath].
  generalize (if Loader.ends_with ".js" scriptPath then scriptPath
              else scriptPath +:+ ".js").
  intros path.
  set (m0 := Machine VUndefined path None VUndefined [] 0 [] []).
  set (m1 := Machine VUndefined path (Some 0) VUndefined [] 1 [0] [Returned VUndefined]).
  assert (await_loadedScript import_ m0 = Some (Ok VUndefined, m1)) as Hfirst
    by reflexivity.
  assert (await_loadedScript import_ m1 =
          match import_ 0 with
          | Loader.Fulfilled ref exports =>
              Some (Ok (VObj ref exports),
                    Machine VUndefined path (Some 0) (VObj ref exports) [1] 1 []
                            [Returned VUndefined; Returned (VObj ref exports)])
          | Loader.Rejected e => None
          end) as Hsecond.
  { unfold await_loadedScript. simpl. by destruct (import_ 0). }
  assert (Unchecked.exec_on machine (await_loadedScript import_) world call_fn construct_fn
            (Unchecked.object path name) m0 w
          = Some (Err (Unchecked.TYPE_ERROR_READ VUndefined name), m1, w)) as Hobj.
  { unfold Unchecked.object. rewrite Hname.
    by rewrite (LibPathMethodsFacts.exec_on_await world call_fn construct_fn), Hfirst. }
  exists m1. split; [done|]. split; [done|]. split; [done|]. split; [|split; [|split]].
  - unfold Unchecked.new. rewrite Hname.
    by rewrite (LibPathMethodsFacts.exec_on_await world call_fn construct_fn), Hfirst.
  - unfold Unchecked.callFunction.
    by rewrite (LibPathMethodsFacts.exec_on_bind world call_fn construct_fn), Hobj.
  - unfold Unchecked.callObjectMethod.
    by rewrite (LibPathMethodsFacts.exec_on_bind world call_fn construct_fn), Hobj.
  - unfold Unchecked.object. rewrite Hname.
    rewrite (LibPathMethodsFacts.exec_on_await world call_fn construct_fn), Hsecond.
    destruct (import_ 0) as [ref ex|e]; [|done].
    eexists. split.
    + unfold Script.getObject_found. simpl.
      destruct (truthy (default VUndefined (assoc name ex))); reflexivity.
    + done.
Qed.

End Methods.

Lemma path_first_call_reads_undefined_witness :
  exists m0 m1 m2,
    constructor "/lib/mathutils" = Ok m0 /\
    Unchecked.exec_on machine (await_loadedScript (fun _ => Examples.mathutils))
      Examples.world Examples.call_fn Examples.construct_fn
      (Unchecked.callFunction "/lib/mathutils.js" "add" [VNum 2; VNum 3]) m0 []
    = Some (Err (Error "TypeError: Cannot read properties of undefined (reading 'add')"),
            m1, []) /\
    Unchecked.exec_on machine (await_loadedScript (fun _ => Examples.mathutils))
      Examples.world Examples.call_fn Examples.construct_fn
      (Unchecked.object "/lib/mathutils.js" "add") m1 []
    = Some (Ok (VFun Examples.add), m2, []).
Proof.
  destruct (path_first_call_reads_undefined
              Examples.world Examples.call_fn Examples.construct_fn
              (fun _ => Examples.mathutils) "/lib/mathutils" "add" "" [VNum 2; VNum 3]
              _ [] eq_refl eq_refl)
    as (m1 & _ & _ & _ & _ & Hcall & _ & m2 & Hsecond & _).
  eexists _, m1, m2. split; [reflexivity|]. split; [exact Hcall|exact Hsecond].
Defined.

End PathFacts.

(** ** The constructors of load/script.js, load/helpers.js and path/script.js *)

Module ConstructorFacts.
Import LibPathModulesFacts.

(** The script path after [if (!scriptPath.endsWith('.js')) scriptPath += '.js']. *)
Definition with_extension (scriptPath : string) : string :=
  if Loader.ends_with ".js" scriptPath then scriptPath else scriptPath +:+ ".js".

Lemma with_extension_ends (scriptPath : string) :
  Loader.ends_with ".js" (with_extension scriptPath) = true.
Proof.
  unfold with_extension. destruct (Loader.ends_with ".js" scriptPath) eqn:H; [done|].
  apply ends_with_app.
Qed.

Lemma ends_with_not_empty (s : string) : Loader.ends_with ".js" s = true -> s <> "".
Proof. by intros H ->. Qed.

(** X19: the three constructors refuse an empty script path and otherwise
    always name a .js file: the extension is appended exactly when the path
    does not end in it, so a path that has been through the constructor
    goes through it again unchanged, and the instance has started no
    import. load/script.js and load/helpers.js then turn the path into a
    file URL; path/script.js keeps it as it is. *)
Theorem constructors_name_a_js_file (pathToFileURL : string -> string) (scriptPath : string) :
  scriptPath <> "" ->
  let normal := with_extension scriptPath in
  Loader.constructor pathToFileURL "" = Err Loader.SCRIPT_PATH_NOT_DEFINED_ERROR /\
  PathScript.constructor "" = Err PathScript.SCRIPT_PATH_NOT_DEFINED_ERROR /\
  Loader.ends_with ".js" normal = true /\
  with_extension normal = normal /\
  Loader.constructor pathToFileURL scriptPath = Ok (Loader.fresh (pathToFileURL normal)) /\
  Loader.constructor pathToFileURL normal = Loader.constructor pathToFileURL scriptPath /\
  exists m0,
    PathScript.constructor scriptPath = Ok m0 /\
    PathScript.constructor normal = Ok m0 /\
    PathScript.p_scriptPath m0 = normal /\
    PathScript.imports m0 = 0 /\ PathScript.pending m0 = [].
Proof.
  intros Hne normal.
  pose proof (with_extension_ends scriptPath) as Hext. fold normal in Hext.
  assert (with_extension normal = normal) as Hidem
    by (unfold with_extension at 1; by rewrite Hext).
  assert (String.eqb scriptPath "" = false) as Hs by by apply String.eqb_neq.
  assert (String.eqb normal "" = false) as Hn
    by (apply String.eqb_neq; by apply ends_with_not_empty).
  split; [done|]. split; [done|]. split; [done|]. split; [done|].
  assert (Loader.constructor pathToFileURL scriptPath
          = Ok (Loader.fresh (pathToFileURL normal))) as Hload
    by (unfold Loader.constructor; by rewrite Hs).
  split; [done|]. split.
  - rewrite Hload. unfold Loader.constructor. rewrite Hn.
    fold (with_extension normal). by rewrite Hidem.
  - eexists. split; [unfold PathScript.constructor; by rewrite Hs|]. split; [|done].
    unfold PathScript.constructor. rewrite Hn.
    fold (with_extension normal). fold (with_extension scriptPath). by rewrite Hidem.
Qed.

Lemma constructors_name_a_js_file_witness :
  Loader.constructor (fun p => "file://" +:+ p) "/lib/mathutils"
    = Ok (Loader.fresh "file:///lib/mathutils.js") /\
  Loader.constructor (fun p => "file://" +:+ p) "/lib/mathutils.js"
    = Loader.constructor (fun p => "file://" +:+ p) "/lib/mathutils" /\
  Loader.constructor (fun p => "file://" +:+ p) "/lib/mathutils.json"
    = Ok (Loader.fresh "file:///lib/mathutils.json.js").
Proof.
  split; [|split].
  - apply (constructors_name_a_js_file (fun p => "file://" +:+ p) "/lib/mathutils").
    discriminate.
  - apply (constructors_name_a_js_file (fun p => "file://" +:+ p) "/lib/mathutils").
    discriminate.
  - apply (constructors_name_a_js_file (fun p => "file://" +:+ p) "/lib/mathutils.json").
    discriminate.
Defined.

End ConstructorFacts.

(** ** How the variants relate *)

Module VariantFacts.
Import Loader Async Script.

Section Facts.

Variable world : Type.
Variable call_fn : func -> list value -> world -> result value * world.
Variable construct_fn : func -> list value -> world -> result value * world.
Variable import_ : nat -> outcome.

Local Abbreviation exec := (Script.exec world call_fn construct_fn import_).

(** X20: the [loadedScript] of lib/path/script.js differs from that of
    load/script.js only while an import is pending. For a caller that is
    alone, on an instance that has its module or has no load under way,
    the two give the same result and leave the same state. *)
Theorem libpath_loader_agrees_when_nothing_is_pending (m : machine) :
  truthy (p_loadedScript m) = true \/ p_loadingScript m = None ->
  LibPathScript.loadedScript m = LoadScript.loadedScript m /\
  LibPathMethods.await_loadedScript import_ m = await_loadedScript import_ m.
Proof.
  intros Hm.
  assert (LibPathScript.loadedScript m = LoadScript.loadedScript m) as Henter.
  { unfold LibPathScript.loadedScript, LoadScript.loadedScript.
    destruct (truthy (p_loadedScript m)); [done|].
    destruct Hm as [? | ->]; done. }
  assert (LibPathMethods.await_loadedScript import_ m = await_loadedScript import_ m)
    as Hawait.
  { unfold LibPathMethods.await_loadedScript, await_loadedScript. rewrite Henter.
    destruct (callers (LoadScript.loadedScript m) !! length (callers m))
      as [[p| | | | |]|] eqn:Hc; try done.
    exfalso. revert Hc. unfold LoadScript.loadedScript.
    destruct (truthy (p_loadedScript m)) eqn:Ht.
    - simpl. by rewrite list_lookup_middle.
    - destruct Hm as [? | ->]; [done|]. simpl. by rewrite list_lookup_middle. }
  done.
Qed.

(** X21: a nested walk of one segment is [getObjectProperty]: the same
    result, the same state and the same world, from every state. *)
Theorem nested_walk_of_one_segment_is_getObjectProperty
  (path name segment : string) (m : machine) (w : world) :
  exec (getNestedObjectProperty path name [segment]) m w
  = exec (getObjectProperty path name segment) m w.
Proof.
  unfold getNestedObjectProperty, getObjectProperty. rewrite !ScriptFacts.exec_bind.
  destruct (exec (getObject path name) m w) as [[[[object|e] m'] w']|]; [|done..].
  simpl. by destruct (truthy (get_prop object segment)).
Qed.

End Facts.

Lemma libpath_loader_agrees_when_nothing_is_pending_witness :
  LibPathMethods.await_loadedScript MoreExamples.flaky_import (fresh MoreExamples.href)
    = Script.await_loadedScript MoreExamples.flaky_import (fresh MoreExamples.href) /\
  LibPathMethods.await_loadedScript MoreExamples.flaky_import MoreExamples.loaded
    = Some (Ok (VObj 30 MoreExamples.exports), return_loaded MoreExamples.loaded).
Proof.
  split.
  - apply (libpath_loader_agrees_when_nothing_is_pending MoreExamples.flaky_import
             (fresh MoreExamples.href)).
    by right.
  - rewrite (proj2 (libpath_loader_agrees_when_nothing_is_pending MoreExamples.flaky_import
                      MoreExamples.loaded (or_introl eq_refl))).
    reflexivity.
Defined.

End VariantFacts.
